(** * Spotify language sorter: a model of [spotify.py]

    The handler of [spotify.py] talks to a remote service through
    [requests]; every function below is the source function of the same
    name, written in a state-and-exception monad whose state carries the
    remote world, the chronological list of requests issued (with the
    outcome the remote gave), the log, and the handler's fields. *)

From Stdlib Require Import List ZArith Lia Bool String Ascii Permutation Arith.
Import ListNotations.
Local Open Scope string_scope.
Local Open Scope list_scope.
Local Open Scope Z_scope.

Set Implicit Arguments.
Set Warnings "-register-all".

(** ** Python values decoded from JSON *)

(** What [response.json()] returns.  Numbers are integers here (the
    counts and positions of the source); an object is a Python dict, its
    bindings kept in insertion order with unique keys. *)
Inductive json : Type :=
| JNull : json
| JBool : bool -> json
| JNum : Z -> json
| JStr : string -> json
| JArr : list json -> json
| JObj : list (string * json) -> json.

(** The exceptions the source can meet. *)
Inductive exn : Type :=
| KeyError
| IndexError
| TypeError
| AttributeError
| JSONDecodeError
| UnboundLocalError
| ConnectionError.

Inductive Res (A : Type) : Type :=
| Ok : A -> Res A
| Raise : exn -> Res A.
Arguments Ok {A} _.
Arguments Raise {A} _.

Definition res_bind {A B} (r : Res A) (f : A -> Res B) : Res B :=
  match r with
  | Ok a => f a
  | Raise e => Raise e
  end.

Definition is_ok {A} (r : Res A) : bool :=
  match r with Ok _ => true | Raise _ => false end.

Fixpoint obj_get (kvs : list (string * json)) (k : string) : option json :=
  match kvs with
  | [] => None
  | (k', v) :: rest => if String.eqb k' k then Some v else obj_get rest k
  end.

(** [v[k]] for a string key. *)
Definition subscript (v : json) (k : string) : Res json :=
  match v with
  | JObj kvs =>
      match obj_get kvs k with
      | Some x => Ok x
      | None => Raise KeyError
      end
  | JArr _ | JStr _ => Raise TypeError
  | JNull | JBool _ | JNum _ => Raise TypeError
  end.

(** [v[0]]. *)
Definition subscript0 (v : json) : Res json :=
  match v with
  | JArr [] => Raise IndexError
  | JArr (x :: _) => Ok x
  | JStr EmptyString => Raise IndexError
  | JStr (String c _) => Ok (JStr (String c EmptyString))
  | JObj _ => Raise KeyError
  | JNull | JBool _ | JNum _ => Raise TypeError
  end.

(** [v.get(k)]: only a dict has the method. *)
Definition dict_get_method (v : json) (k : string) : Res json :=
  match v with
  | JObj kvs =>
      match obj_get kvs k with
      | Some x => Ok x
      | None => Ok JNull
      end
  | JNull | JBool _ | JNum _ | JStr _ | JArr _ => Raise AttributeError
  end.

(** [v.status_code]: no decoded JSON value has the attribute. *)
Definition status_code_attr (v : json) : Res Z :=
  match v with
  | JNull | JBool _ | JNum _ | JStr _ | JArr _ | JObj _ => Raise AttributeError
  end.

Fixpoint chars (s : string) : list json :=
  match s with
  | EmptyString => []
  | String c rest => JStr (String c EmptyString) :: chars rest
  end.

(** The values produced by iterating over [v] (a [for] loop, a
    comprehension, [list.extend]). *)
Definition py_iter (v : json) : Res (list json) :=
  match v with
  | JArr l => Ok l
  | JStr s => Ok (chars s)
  | JObj kvs => Ok (map (fun kv => JStr (fst kv)) kvs)
  | JNull | JBool _ | JNum _ => Raise TypeError
  end.

(** Truth value of [v], as [not v] tests it. *)
Definition truthy (v : json) : bool :=
  match v with
  | JNull => false
  | JBool b => b
  | JNum n => negb (n =? 0)
  | JStr s => negb (String.eqb s "")
  | JArr l => match l with [] => false | _ => true end
  | JObj l => match l with [] => false | _ => true end
  end.

(** The integer behind [v] in [v / 50]. *)
Definition as_number (v : json) : Res Z :=
  match v with
  | JNum n => Ok n
  | JBool b => Ok (if b then 1 else 0)
  | JNull | JStr _ | JArr _ | JObj _ => Raise TypeError
  end.

(** ** Arithmetic of the loops *)

(** [round(n / d)]: Python 3 rounds the quotient to the nearest integer,
    a tie going to the even one.  The quotient is a binary64 float in the
    source; it is taken exactly here, which is what the float computes for
    every count below 2^52. *)
Definition py_round_div (n d : Z) : Z :=
  let q := n / d in
  let r := n mod d in
  if 2 * r <? d then q
  else if d <? 2 * r then q + 1
  else if Z.even q then q else q + 1.

(** [math.ceil(n / d)]. *)
Definition py_ceil_div (n d : Z) : Z := (n + d - 1) / d.

(** [range(n)]: empty for [n <= 0]. *)
Definition py_range (n : Z) : list nat := seq 0 (Z.to_nat n).

(** [round(total / 50) or 1]. *)
Definition page_count (total : Z) : Z :=
  let r := py_round_div total 50 in
  if r =? 0 then 1 else r.

(** [l[a:b]] for [0 <= a <= b]. *)
Definition py_slice {A} (l : list A) (a b : nat) : list A :=
  firstn (b - a)%nat (skipn a l).

(** The slices cut by [for i in range(math.ceil(len(l) / c))]. *)
Definition chunks {A} (c : nat) (l : list A) : list (list A) :=
  map (fun i => py_slice l (i * c)%nat (i * c + c)%nat)
      (py_range (py_ceil_div (Z.of_nat (List.length l)) (Z.of_nat c))).

(** ** Requests, outcomes and the handler's state *)

Inductive Method : Type := GET | POST | DELETE.

(** The URL of a request.  The ids spliced into a path by an f-string are
    kept as the values they are. *)
Inductive Endpoint : Type :=
| EpToken                          (* https://accounts.spotify.com/api/token *)
| EpMe                             (* me *)
| EpMeTracks                       (* me/tracks *)
| EpUserPlaylists (uid : json)     (* users/{user_id}/playlists *)
| EpPlaylistTracks (pid : json)    (* playlists/{playlist_id}/tracks *)
| EpGeniusSearch (name artist : json). (* api.genius.com/search?q=... *)

(** [NoHeaders] is both [None] and the empty dict: [not headers] holds of
    both, and [requests] sends the same for both. *)
Inductive Headers : Type :=
| NoHeaders
| Basic (client_id secret_key : string)
| Bearer (tok : string)
| GeniusBearer.

Record Request : Type := mkRequest {
  req_method : Method;
  req_endpoint : Endpoint;
  req_headers : Headers;
  req_data : option json;
  req_params : list (string * Z)
}.

(** What a request comes back with: the call raised, or a response with
    its status and its body ([None] when the body is not JSON, so that
    [response.json()] raises). *)
Inductive Outcome : Type :=
| Failed
| Response (status : Z) (body : option json).

Abbreviation Event := (Request * Outcome)%type.

Inductive LogEntry : Type :=
| LogInfo (msg : string)
| LogCallException (r : Request)
| LogCallStatus (r : Request) (status : Z)
| LogPageException (ep : Endpoint) (page : nat) (e : exn)
| LogTokenException (e : exn)
| LogCreateFailed (name : json)
| LogAddFailed (name : json).

(** ** Songs and playlists *)

Record Song : Type := mkSong {
  song_name : json;
  song_artist : json;
  song_lan : json;
  song_uri : json
}.

Record Playlist : Type := mkPlaylist {
  playlist_name : json;
  playlist_id : json
}.

(** [Song(song["track"]["name"], song["track"]["artists"][0]["name"],
    song["track"]["uri"])] *)
Definition song_of_item (song : json) : Res Song :=
  res_bind (res_bind (subscript song "track") (fun t => subscript t "name")) (fun n =>
  res_bind (res_bind (res_bind (res_bind (subscript song "track")
              (fun t => subscript t "artists")) subscript0)
              (fun a => subscript a "name")) (fun a =>
  res_bind (res_bind (subscript song "track") (fun t => subscript t "uri")) (fun u =>
  Ok (mkSong n a JNull u)))).

(** [Playlist(playlist["name"], playlist["id"])] *)
Definition playlist_of_item (playlist : json) : Res Playlist :=
  res_bind (subscript playlist "name") (fun n =>
  res_bind (subscript playlist "id") (fun i =>
  Ok (mkPlaylist n i))).

Fixpoint res_map {A B} (f : A -> Res B) (l : list A) : Res (list B) :=
  match l with
  | [] => Ok []
  | x :: rest =>
      res_bind (f x) (fun y => res_bind (res_map f rest) (fun ys => Ok (y :: ys)))
  end.

(** ** Resolving the language of a track *)

Definition unidentified : json := JStr "unidentified".

(** [json()["response"]["hits"][0]["result"]["language"]] *)
Definition language_path (j : json) : Res json :=
  res_bind (res_bind (res_bind (res_bind (subscript j "response")
    (fun r => subscript r "hits")) subscript0)
    (fun h => subscript h "result"))
    (fun r => subscript r "language").

(** What [response.json()] and [future.result().json()] give when the
    request was sent outside [make_call]. *)
Definition lookup_json (out : Outcome) : Res json :=
  match out with
  | Failed => Raise ConnectionError
  | Response _ None => Raise JSONDecodeError
  | Response _ (Some j) => Ok j
  end.

(** The body of the second loop of [get_songs_and_lan]: the [try], with
    its [except (KeyError, IndexError)]. *)
Definition resolve_lan (out : Outcome) : Res json :=
  match res_bind (lookup_json out) language_path with
  | Ok JNull => Ok unidentified
  | Ok v => Ok v
  | Raise KeyError => Ok unidentified
  | Raise IndexError => Ok unidentified
  | Raise e => Raise e
  end.

(** ** Grouping by language *)

(** Equality and hashing of the values a dict or a set can hold: [True]
    and [1] are the same key, lists and dicts are unhashable. *)
Inductive pykey : Type :=
| KNone
| KInt (n : Z)
| KStr (s : string).

Definition key_of (v : json) : option pykey :=
  match v with
  | JNull => Some KNone
  | JBool b => Some (KInt (if b then 1 else 0))
  | JNum n => Some (KInt n)
  | JStr s => Some (KStr s)
  | JArr _ | JObj _ => None
  end.

Definition pykey_eqb (a b : pykey) : bool :=
  match a, b with
  | KNone, KNone => true
  | KInt m, KInt n => m =? n
  | KStr s, KStr t => String.eqb s t
  | _, _ => false
  end.

Definition hashable (v : json) : bool :=
  match key_of v with Some _ => true | None => false end.

Definition py_eqb (a b : json) : bool :=
  match key_of a, key_of b with
  | Some x, Some y => pykey_eqb x y
  | _, _ => false
  end.

(** A dict in insertion order. *)
Definition pydict (V : Type) : Type := list (json * V).

Fixpoint dict_lookup {V} (d : pydict V) (k : json) : option V :=
  match d with
  | [] => None
  | (k', v) :: rest => if py_eqb k' k then Some v else dict_lookup rest k
  end.

(** [d[k] = v]: an existing key keeps its place and its key object. *)
Fixpoint dict_set {V} (d : pydict V) (k : json) (v : V) : pydict V :=
  match d with
  | [] => [(k, v)]
  | (k', v') :: rest =>
      if py_eqb k' k then (k', v) :: rest else (k', v') :: dict_set rest k v
  end.

(** [d[k].append(u)] *)
Fixpoint dict_append (d : pydict (list json)) (k u : json)
  : Res (pydict (list json)) :=
  match d with
  | [] => Raise KeyError
  | (k', us) :: rest =>
      if py_eqb k' k then Ok ((k', us ++ [u]) :: rest)
      else res_bind (dict_append rest k u) (fun r => Ok ((k', us) :: r))
  end.

(** The distinct elements of [l], the first of each kept. *)
Fixpoint dedup (l : list json) : list json :=
  match l with
  | [] => []
  | x :: rest => x :: filter (fun y => negb (py_eqb x y)) (dedup rest)
  end.

Fixpoint append_all (d : pydict (list json)) (songs : list Song)
  : Res (pydict (list json)) :=
  match songs with
  | [] => Ok d
  | s :: rest =>
      res_bind (dict_append d (song_lan s) (song_uri s)) (fun d' => append_all d' rest)
  end.

Fixpoint names_dict (d : pydict json) (playlists : list Playlist) : Res (pydict json) :=
  match playlists with
  | [] => Ok d
  | p :: rest =>
      if hashable (playlist_name p)
      then names_dict (dict_set d (playlist_name p) (playlist_id p)) rest
      else Raise TypeError
  end.

(** [requests.post(...).json()["access_token"]] *)
Definition access_token_of (out : Outcome) : Res json :=
  res_bind (lookup_json out) (fun j => subscript j "access_token").

(** ** The handler *)

Inductive PyRet : Type := RetFalse | RetNone.

Section Handler.

(** The remote service: a state and its answer to a request. *)
Variable World : Type.
Variable remote : World -> Request -> World * Outcome.

(** The lyrics service: the outcome of the lookup submitted for the
    track at a position, whatever the three workers did in between. *)
Variable genius : nat -> json -> json -> Outcome.

(** The order in which a set hands out its (distinct) elements. *)
Variable set_order : list json -> list json.

(** The module's globals. *)
Variables CLIENT_ID SECRET_KEY : string.
Variable URI : json.

Record State : Type := mkState {
  world : World;
  trace : list Event;
  log : list LogEntry;
  token : json;
  api_headers : Headers;
  user_id : option json
}.

(** [SpotifyHandler.__init__] *)
Definition init (w : World) : State :=
  mkState w [] [] (JStr "") NoHeaders None.

Definition record_call (ev : Event) (w : World) (st : State) : State :=
  mkState w (trace st ++ [ev]) (log st) (token st) (api_headers st) (user_id st).

Definition add_log (l : LogEntry) (st : State) : State :=
  mkState (world st) (trace st) (log st ++ [l]) (token st) (api_headers st) (user_id st).

Definition set_token (t : json) (st : State) : State :=
  mkState (world st) (trace st) (log st) t (api_headers st) (user_id st).

Definition set_api_headers (h : Headers) (st : State) : State :=
  mkState (world st) (trace st) (log st) (token st) h (user_id st).

Definition set_user_id (u : json) (st : State) : State :=
  mkState (world st) (trace st) (log st) (token st) (api_headers st) (Some u).

Definition M (A : Type) : Type := State -> Res A * State.

Definition ret {A} (a : A) : M A := fun st => (Ok a, st).

Definition bind {A B} (c : M A) (f : A -> M B) : M B :=
  fun st =>
    match c st with
    | (Ok a, st1) => f a st1
    | (Raise e, st1) => (Raise e, st1)
    end.

Definition lift {A} (r : Res A) : M A := fun st => (r, st).

Definition logging (l : LogEntry) : M unit := fun st => (Ok tt, add_log l st).

(** [try: c  except Exception as e: h e] *)
Definition try_except {A} (c : M A) (h : exn -> M A) : M A :=
  fun st =>
    match c st with
    | (Ok a, st1) => (Ok a, st1)
    | (Raise e, st1) => h e st1
    end.

Notation "x <- c ;; k" := (bind c (fun x => k))
  (at level 61, c at next level, right associativity).
Notation "c ;;; k" := (bind c (fun _ => k))
  (at level 61, right associativity).

(** [make_call]: a call that raises is logged, and then
    [response.status_code] finds [response] unbound. *)
Definition make_call (method : Method) (endpoint : Endpoint) (headers : Headers)
           (data : option json) (params : list (string * Z)) : M json :=
  fun st =>
    let headers :=
      match headers with NoHeaders => api_headers st | _ => headers end in
    let req := mkRequest method endpoint headers data params in
    let (w, out) := remote (world st) req in
    let st1 := record_call (req, out) w st in
    match out with
    | Failed => (Raise UnboundLocalError, add_log (LogCallException req) st1)
    | Response status body =>
        let st2 :=
          if status =? 200 then st1 else add_log (LogCallStatus req status) st1 in
        match body with
        | Some j => (Ok j, st2)
        | None => (Raise JSONDecodeError, st2)
        end
    end.

(** *** [get_resource] *)

Definition page_params (page : nat) : list (string * Z) :=
  [("offset", Z.of_nat page * 50); ("limit", 50)].

(** [self.make_call("get", ..., params={...})["items"]], iterated by
    [items.extend]. *)
Definition fetch_page (endpoint : Endpoint) (headers : Headers)
           (data : option json) (page : nat) : M (list json) :=
  r <- make_call GET endpoint headers data (page_params page) ;;
  lift (res_bind (subscript r "items") py_iter).

Fixpoint get_resource_loop (endpoint : Endpoint) (headers : Headers)
         (data : option json) (pages : list nat) (items : list json)
  : M (list json) :=
  match pages with
  | [] => ret items
  | page :: rest =>
      items' <- try_except
                  (new <- fetch_page endpoint headers data page ;;
                   ret (items ++ new))
                  (fun e => logging (LogPageException endpoint page e) ;;;
                            ret items) ;;
      get_resource_loop endpoint headers data rest items'
  end.

Definition get_resource (endpoint : Endpoint) (headers : Headers)
           (data : option json) (params : list (string * Z)) : M (list json) :=
  r <- make_call GET endpoint headers data params ;;
  t <- lift (subscript r "total") ;;
  total <- lift (as_number t) ;;
  get_resource_loop endpoint headers data (py_range (page_count total)) [].

Definition get_songs : M (list Song) :=
  items <- get_resource EpMeTracks NoHeaders None [] ;;
  lift (res_map song_of_item items).

Definition get_user_id : M json :=
  fun st =>
    (r <- make_call GET EpMe (api_headers st) None [] ;;
     lift (subscript r "id")) st.

(** *** [get_songs_and_lan] *)

Definition genius_request (t : Song) : Request :=
  mkRequest GET (EpGeniusSearch (song_name t) (song_artist t)) GeniusBearer None [].

(** The first loop: [track.lan] holds the future of the lookup. *)
Fixpoint submit_lookups (i : nat) (tracks : list Song) : list (Song * Outcome) :=
  match tracks with
  | [] => []
  | t :: rest =>
      (t, genius i (song_name t) (song_artist t)) :: submit_lookups (S i) rest
  end.

Definition set_lan (t : Song) (l : json) : Song :=
  mkSong (song_name t) (song_artist t) l (song_uri t).

(** The second loop. *)
Definition collect_lans (futures : list (Song * Outcome)) : Res (list Song) :=
  res_map (fun tf => res_bind (resolve_lan (snd tf))
                              (fun l => Ok (set_lan (fst tf) l))) futures.

Definition record_lookups (futures : list (Song * Outcome)) : M unit :=
  fun st =>
    (Ok tt,
     mkState (world st)
             (trace st ++ map (fun tf => (genius_request (fst tf), snd tf)) futures)
             (log st) (token st) (api_headers st) (user_id st)).

Definition get_songs_and_lan : M (list Song) :=
  tracks <- get_songs ;;
  let futures := submit_lookups 0 tracks in
  record_lookups futures ;;;
  lift (collect_lans futures).

Definition read_user_id : M json :=
  fun st =>
    match user_id st with
    | Some u => (Ok u, st)
    | None => (Raise AttributeError, st)
    end.

Definition get_playlists : M (list Playlist) :=
  uid <- read_user_id ;;
  items <- get_resource (EpUserPlaylists uid) NoHeaders None [] ;;
  lift (res_map playlist_of_item items).

(** *** The batch mutations *)

Fixpoint for_each {A} (l : list A) (body : A -> M unit) : M unit :=
  match l with
  | [] => ret tt
  | x :: rest => body x ;;; for_each rest body
  end.

(** [track["track"]["uri"]] *)
Definition track_uri (track : json) : Res json :=
  res_bind (subscript track "track") (fun t => subscript t "uri").

(** [{"tracks": [{"uri": ...} for ...]}] *)
Definition removal_body (uris : list json) : json :=
  JObj [("tracks", JArr (map (fun u => JObj [("uri", u)]) uris))].

(** One turn of the loop of [empty_playlist]: the page is read first, it
    is an argument of the removal call. *)
Definition empty_round (playlist_id : json) : M unit :=
  page <- make_call GET (EpPlaylistTracks playlist_id) NoHeaders None [("limit", 50)] ;;
  uris <- lift (res_bind (res_bind (subscript page "items") py_iter)
                         (res_map track_uri)) ;;
  make_call DELETE (EpPlaylistTracks playlist_id) NoHeaders
            (Some (removal_body uris)) [] ;;;
  ret tt.

(** [empty_playlist]: the argument of [range] is evaluated once, before
    the first turn. *)
Definition empty_playlist (playlist_id : json) : M unit :=
  r <- make_call GET (EpPlaylistTracks playlist_id) NoHeaders None [] ;;
  t <- lift (subscript r "total") ;;
  total <- lift (as_number t) ;;
  for_each (py_range (py_ceil_div total 50)) (fun _ => empty_round playlist_id).

(** [{"uris": songs[i * 90 : i * 90 + 90]}] *)
Definition append_body (songs : list json) (i : nat) : json :=
  JObj [("uris", JArr (py_slice songs (i * 90)%nat (i * 90 + 90)%nat))].

Definition update_playlist (playlist_id : json) (songs : list json) : M unit :=
  for_each (py_range (py_ceil_div (Z.of_nat (List.length songs)) 90))
           (fun i =>
              make_call POST (EpPlaylistTracks playlist_id) NoHeaders
                        (Some (append_body songs i)) [] ;;;
              ret tt).

(** [{"uris": songs[i * 90 : (i + 1) * 90], "position": i * 90}] *)
Definition create_body (songs : list json) (i : nat) : json :=
  JObj [("uris", JArr (py_slice songs (i * 90)%nat ((i + 1) * 90)%nat));
        ("position", JNum (Z.of_nat i * 90))].

Fixpoint create_loop (name playlist_id : json) (songs : list json)
         (idx : list nat) : M bool :=
  match idx with
  | [] => ret true
  | i :: rest =>
      fun st =>
        (r <- make_call POST (EpPlaylistTracks playlist_id) (api_headers st)
                        (Some (create_body songs i)) [] ;;
         status <- lift (status_code_attr r) ;;
         if negb (status =? 200)
         then logging (LogAddFailed name) ;;; ret false
         else create_loop name playlist_id songs rest) st
  end.

Definition create_playlist (name : json) (songs : list json) : M bool :=
  uid <- read_user_id ;;
  r <- make_call POST (EpUserPlaylists uid) NoHeaders
                 (Some (JObj [("name", name); ("public", JBool false)])) [] ;;
  playlist_id <- lift (dict_get_method r "id") ;;
  if negb (truthy playlist_id)
  then logging (LogCreateFailed name) ;;; ret false
  else create_loop name playlist_id songs
                   (py_range (py_ceil_div (Z.of_nat (List.length songs)) 90)).

(** *** [authorize] *)

Definition token_request (code : json) : Request :=
  mkRequest POST EpToken (Basic CLIENT_ID SECRET_KEY)
            (Some (JObj [("grant_type", JStr "authorization_code");
                         ("code", code);
                         ("redirect_uri", URI)]))
            [].

(** The [try] block of [authorize]. *)
Definition token_exchange (code : json) : M unit :=
  fun st =>
    let req := token_request code in
    let (w, out) := remote (world st) req in
    let st1 := record_call (req, out) w st in
    match access_token_of out with
    | Ok t => (Ok tt, set_token t st1)
    | Raise e => (Raise e, st1)
    end.

(** ["Bearer " + self.token] *)
Definition bearer_of (t : json) : Res Headers :=
  match t with
  | JStr s => Ok (Bearer s)
  | JNull | JBool _ | JNum _ | JArr _ | JObj _ => Raise TypeError
  end.

Definition authorize (code : json) : M (option json) :=
  ok <- try_except (token_exchange code ;;; ret true)
                   (fun e => logging (LogTokenException e) ;;; ret false) ;;
  if negb ok then ret None
  else
    fun st =>
      (h <- lift (bearer_of (token st)) ;;
       (fun st1 => (Ok tt, set_api_headers h st1)) ;;;
       uid <- get_user_id ;;
       (fun st1 => (Ok tt, set_user_id uid st1)) ;;;
       (fun st1 => (Ok (Some (token st1)), st1))) st.

(** *** [process] *)

(** [{lan: [] for lan in set(song.lan for song in all_songs)}], then the
    loop appending each uri. *)
Definition group_songs (all_songs : list Song) : Res (pydict (list json)) :=
  let lans := map song_lan all_songs in
  if forallb hashable lans
  then append_all (map (fun lan => (lan, @nil json)) (set_order (dedup lans)))
                  all_songs
  else Raise TypeError.

Definition dict_getitem {V} (d : pydict V) (k : json) : Res V :=
  match dict_lookup d k with
  | Some v => Ok v
  | None => Raise KeyError
  end.

(** The body of the last loop of [process]. *)
Definition reconcile (playlist_names : pydict json)
           (lan_songs_dict : pydict (list json)) (lan : json) : M unit :=
  match dict_lookup playlist_names lan with
  | Some pid =>
      empty_playlist pid ;;;
      uris <- lift (dict_getitem lan_songs_dict lan) ;;
      update_playlist pid uris
  | None =>
      uris <- lift (dict_getitem lan_songs_dict lan) ;;
      create_playlist lan uris ;;;
      ret tt
  end.

Definition falsy_token (t : option json) : bool :=
  match t with
  | None => true
  | Some v => negb (truthy v)
  end.

(** [process], from ["Authorized correctly"] on. *)
Definition redistribute : M PyRet :=
  logging (LogInfo "Authorized correctly") ;;;
  all_songs <- get_songs_and_lan ;;
  logging (LogInfo "Collecting users's songs and playlists") ;;;
  lan_songs_dict <- lift (group_songs all_songs) ;;
  playlists <- get_playlists ;;
  playlist_names <- lift (names_dict [] playlists) ;;
  logging (LogInfo "Creating and populating playlists...") ;;;
  for_each (map fst lan_songs_dict)
           (reconcile playlist_names lan_songs_dict) ;;;
  logging (LogInfo "Process finished") ;;;
  ret RetNone.

Definition process_body (code : json) : M PyRet :=
  logging (LogInfo "Process started") ;;;
  tok <- authorize code ;;
  if falsy_token tok then ret RetFalse else redistribute.

(** [process]: the handler is a fresh one; [code] is the module's
    global. *)
Definition process (code : json) (w : World) : Res PyRet * State :=
  process_body code (init w).

End Handler.

Arguments mkState {World} _ _ _ _ _ _.
Arguments init {World} _.

(** ** Reading a run back from its trace *)

(** What [make_call] hands to its caller, given the outcome of its
    request. *)
Definition call_result (out : Outcome) : Res json :=
  match out with
  | Failed => Raise UnboundLocalError
  | Response _ (Some j) => Ok j
  | Response _ None => Raise JSONDecodeError
  end.

(** What [make_call] logs. *)
Definition call_log (req : Request) (out : Outcome) : list LogEntry :=
  match out with
  | Failed => [LogCallException req]
  | Response status _ => if status =? 200 then [] else [LogCallStatus req status]
  end.

(** The headers [make_call] sends. *)
Definition sent_headers (given current : Headers) : Headers :=
  match given with NoHeaders => current | _ => given end.

(** The items a page request brings, or the exception met on the way. *)
Definition page_items (out : Outcome) : Res (list json) :=
  res_bind (call_result out) (fun r => res_bind (subscript r "items") py_iter).

(** What a page adds to the list [get_resource] returns. *)
Definition contributed (ev : Event) : list json :=
  match page_items (snd ev) with
  | Ok l => l
  | Raise _ => []
  end.

(** What [get_resource] logs for a page. *)
Definition page_log (endpoint : Endpoint) (page : nat) (ev : Event) : list LogEntry :=
  call_log (fst ev) (snd ev) ++
  match page_items (snd ev) with
  | Ok _ => []
  | Raise e => [LogPageException endpoint page e]
  end.

Fixpoint pages_log (endpoint : Endpoint) (pages : list nat) (evs : list Event)
  : list LogEntry :=
  match pages, evs with
  | page :: ps, ev :: es => page_log endpoint page ev ++ pages_log endpoint ps es
  | _, _ => []
  end.

(** The uris read from the page fetched by a turn of [empty_playlist]. *)
Definition page_uris (out : Outcome) : Res (list json) :=
  res_bind (call_result out) (fun page =>
  res_bind (res_bind (subscript page "items") py_iter) (res_map track_uri)).

(** The uris carried by a request that adds tracks. *)
Definition submitted_uris (ev : Event) : list json :=
  match req_data (fst ev) with
  | Some (JObj (("uris", JArr l) :: _)) => l
  | _ => []
  end.

Definition is_get (ev : Event) : bool :=
  match req_method (fst ev) with GET => true | _ => false end.

Definition is_delete (ev : Event) : bool :=
  match req_method (fst ev) with DELETE => true | _ => false end.

Definition is_post (ev : Event) : bool :=
  match req_method (fst ev) with POST => true | _ => false end.

(** A request that asks for the listing without [limit]: the one whose
    [total] [empty_playlist] reads. *)
Definition is_total_query (ev : Event) : bool :=
  is_get ev && match req_params (fst ev) with [] => true | _ => false end.

(** The request [make_call] sends from a state. *)
Definition request_in {World} (st : State World) (m : Method) (ep : Endpoint)
           (hd : Headers) (d : option json) (p : list (string * Z)) : Request :=
  mkRequest m ep (sent_headers hd (api_headers st)) d p.

(** The state [make_call] leaves. *)
Definition after_call {World} (remote : World -> Request -> World * Outcome)
           (st : State World) (req : Request) : State World :=
  let wo := remote (world st) req in
  mkState (fst wo) (trace st ++ [(req, snd wo)])
          (log st ++ call_log req (snd wo))
          (token st) (api_headers st) (user_id st).

(** The [total] read from the answer to the first request of
    [get_resource] and of [empty_playlist]. *)
Definition reported_total (out : Outcome) : Res Z :=
  res_bind (call_result out) (fun r => res_bind (subscript r "total") as_number).

(** The events of [n] turns of the loop of [empty_playlist]: each turn a
    request for a page of at most 50 entries, then a removal request for
    the uris of exactly that page. *)
Fixpoint removal_rounds (pid : json) (hd : Headers) (evs : list Event) (n : nat)
  : Prop :=
  match n, evs with
  | O, [] => True
  | S n', (r1, o1) :: (r2, _) :: rest =>
      r1 = mkRequest GET (EpPlaylistTracks pid) hd None [("limit", 50)] /\
      (exists uris,
          page_uris o1 = Ok uris /\
          r2 = mkRequest DELETE (EpPlaylistTracks pid) hd (Some (removal_body uris)) []) /\
      removal_rounds pid hd rest n'
  | _, _ => False
  end.

(** The uris of the songs whose label is the key [k], in the order of the
    songs. *)
Definition group_of (songs : list Song) (k : json) : list json :=
  map song_uri (filter (fun s => py_eqb k (song_lan s)) songs).

(** A request on the tracks of a playlist. *)
Definition targets_tracks (ev : Event) : bool :=
  match req_endpoint (fst ev) with
  | EpPlaylistTracks _ => true
  | _ => false
  end.

(** The events of a run of the loop of [empty_playlist], complete or cut
    short by an exception: a removal request only ever comes right after a
    request for a page, and carries the uris of that page. *)
Fixpoint removals_follow_pages (pid : json) (hd : Headers) (evs : list Event)
  : Prop :=
  match evs with
  | [] => True
  | (r1, o1) :: rest =>
      r1 = mkRequest GET (EpPlaylistTracks pid) hd None [("limit", 50)] /\
      match rest with
      | [] => True
      | (r2, _) :: rest' =>
          (exists uris,
              page_uris o1 = Ok uris /\
              r2 = mkRequest DELETE (EpPlaylistTracks pid) hd
                             (Some (removal_body uris)) []) /\
          removals_follow_pages pid hd rest'
      end
  end.

(** ** A remote that plays a script *)

(** The answers of the remote, in the order of the requests; a remote out
    of answers is unreachable. *)
Definition Script : Type := list Outcome.

Definition scripted (w : Script) (_ : Request) : Script * Outcome :=
  match w with
  | [] => ([], Failed)
  | out :: rest => (rest, out)
  end.

Definition ok_json (j : json) : Outcome := Response 200 (Some j).

Definition no_lookup (_ : nat) (_ _ : json) : Outcome := Failed.

Definition same_order (l : list json) : list json := l.

(** A playlist of two entries of one track, reported with a total of 100:
    the first removal empties it, the page of the second turn is empty. *)
Definition entry (u : string) : json := JObj [("track", JObj [("uri", JStr u)])].

Definition shrinking_playlist : Script :=
  [ ok_json (JObj [("total", JNum 100); ("items", JArr [entry "a"; entry "a"])]);
    ok_json (JObj [("total", JNum 100); ("items", JArr [entry "a"; entry "a"])]);
    ok_json (JObj [("snapshot_id", JStr "s1")]);
    ok_json (JObj [("total", JNum 0); ("items", JArr [])]);
    ok_json (JObj [("snapshot_id", JStr "s2")]) ].

Definition signed_in (w : Script) : State Script :=
  mkState w [] [] (JStr "t") (Bearer "t") (Some (JStr "me")).

(** A listing of 120 entries, answered in two pages. *)
Definition two_pages : Script :=
  [ ok_json (JObj [("total", JNum 120)]);
    ok_json (JObj [("items", JArr [JStr "a"])]);
    ok_json (JObj [("items", JArr [JStr "b"])]) ].

(** A listing of 100 entries whose first page request raises. *)
Definition first_page_lost : Script :=
  [ ok_json (JObj [("total", JNum 100)]);
    Failed;
    ok_json (JObj [("items", JArr [JStr "b"])]) ].

Definition saved_track (name artist uri : string) : json :=
  JObj [("track", JObj [("name", JStr name);
                        ("artists", JArr [JObj [("name", JStr artist)]]);
                        ("uri", JStr uri)])].

(** A library of one saved track. *)
Definition one_saved_track : Script :=
  [ ok_json (JObj [("total", JNum 1)]);
    ok_json (JObj [("items", JArr [saved_track "Song" "Artist" "spotify:track:1"])]) ].

(** Lookups that find nothing, and lookups that find an empty language. *)
Definition no_hits (_ : nat) (_ _ : json) : Outcome :=
  ok_json (JObj [("response", JObj [("hits", JArr [])])]).

Definition empty_language (_ : nat) (_ _ : json) : Outcome :=
  ok_json (JObj [("response",
    JObj [("hits", JArr [JObj [("result", JObj [("language", JStr "")])]])])]).

(** The token endpoint refuses the code. *)
Definition token_refused : Script :=
  [ Response 400 (Some (JObj [("error", JStr "invalid_grant")])) ].

(** The authorization goes through, the listing of the saved tracks is
    answered with an error document. *)
Definition listing_refused : Script :=
  [ ok_json (JObj [("access_token", JStr "t")]);
    ok_json (JObj [("id", JStr "me")]);
    Response 429 (Some (JObj [("error", JObj [("status", JNum 429)])])) ].

(** The playlist is created, the first append is accepted. *)
Definition created_then_appended : Script :=
  [ ok_json (JObj [("id", JStr "p1")]);
    ok_json (JObj [("snapshot_id", JStr "s1")]) ].

Definition uri_of (i : nat) : json :=
  JStr ("spotify:track:"
        ++ String (ascii_of_nat (48 + i / 10)) (String (ascii_of_nat (48 + i mod 10)) "")).

(** 91 uris, and a remote that accepts two appends. *)
Definition uris91 : list json := map uri_of (seq 0 91).

Definition two_appends : Script :=
  [ Response 201 (Some (JObj [("snapshot_id", JStr "s1")]));
    Response 201 (Some (JObj [("snapshot_id", JStr "s2")])) ].

Definition three_songs : list Song :=
  [ mkSong (JStr "n1") (JStr "a1") (JStr "en") (JStr "u1");
    mkSong (JStr "n2") (JStr "a2") (JStr "pl") (JStr "u2");
    mkSong (JStr "n3") (JStr "a3") (JStr "en") (JStr "u3") ].

(** A library of 91 saved tracks, all in one language, and no playlist
    yet: the listing reports 91 entries and answers in two pages, the
    playlists of the user are none, the creation and the first append are
    accepted. *)
Definition saved_item (i : nat) : json :=
  JObj [("track", JObj [("name", JStr "title");
                        ("artists", JArr [JObj [("name", JStr "artist")]]);
                        ("uri", uri_of i)])].

Definition library91 : Script :=
  [ ok_json (JObj [("access_token", JStr "t")]);
    ok_json (JObj [("id", JStr "me")]);
    ok_json (JObj [("total", JNum 91)]);
    ok_json (JObj [("items", JArr (map saved_item (seq 0 50)))]);
    ok_json (JObj [("items", JArr (map saved_item (seq 50 41)))]);
    ok_json (JObj [("total", JNum 0)]);
    ok_json (JObj [("items", JArr [])]);
    ok_json (JObj [("id", JStr "p1")]);
    ok_json (JObj [("snapshot_id", JStr "s1")]) ].

Definition english (_ : nat) (_ _ : json) : Outcome :=
  ok_json (JObj [("response",
    JObj [("hits", JArr [JObj [("result", JObj [("language", JStr "en")])]])])]).

(** More remotes and inputs for the runs below. *)
Definition error_document : Outcome :=
  Response 429 (Some (JObj [("error", JObj [("status", JNum 429)])])).

Definition only_error : Script := [ error_document ].

Definition token_is_null : Script :=
  [ ok_json (JObj [("access_token", JNull)]) ].

Definition user_refused : Script :=
  [ ok_json (JObj [("access_token", JStr "t")]); error_document ].

Definition broken_entry : Script :=
  [ ok_json (JObj [("total", JNum 1)]);
    ok_json (JObj [("items", JArr [JObj [("added_at", JStr "2020")]])]) ].

Definition empty_listing : Script :=
  [ ok_json (JObj [("total", JNum 0); ("items", JArr [])]) ].

Definition second_append_lost : Script :=
  [ Response 201 (Some (JObj [("snapshot_id", JStr "s1")])); Failed ].

Definition odd_songs : list Song :=
  [ mkSong (JStr "n1") (JStr "a1") (JStr "en") (JStr "u1");
    mkSong (JStr "n2") (JStr "a2") (JArr [JStr "pl"]) (JStr "u2") ].

Definition twin_playlists : list Playlist :=
  [ mkPlaylist (JStr "en") (JStr "p1");
    mkPlaylist (JStr "pl") (JStr "p2");
    mkPlaylist (JStr "en") (JStr "p3") ].

Definition one_playlist : Script :=
  [ ok_json (JObj [("total", JNum 1)]);
    ok_json (JObj [("items", JArr [JObj [("name", JStr "en"); ("id", JStr "p1")]])]) ].

(** An account with no saved track and no playlist. *)
Definition empty_account : Script :=
  [ ok_json (JObj [("total", JNum 0)]);
    ok_json (JObj [("items", JArr [])]);
    ok_json (JObj [("total", JNum 0)]);
    ok_json (JObj [("items", JArr [])]) ].

Unset Implicit Arguments.

(** ** Properties *)

(** *** Arithmetic *)

Lemma py_round_div_nonneg n : 0 <= n -> 0 <= py_round_div n 50.
Proof.
  intros Hn. unfold py_round_div. cbv zeta.
  assert (0 <= n / 50) by (apply Z.div_pos; lia).
  destruct (2 * (n mod 50) <? 50); [lia|].
  destruct (50 <? 2 * (n mod 50)); [lia|].
  destruct (Z.even (n / 50)); lia.
Qed.

Lemma page_count_max n : 0 <= n -> page_count n = Z.max 1 (py_round_div n 50).
Proof.
  intros Hn. pose proof (py_round_div_nonneg n Hn) as Hr.
  unfold page_count. cbv zeta.
  destruct (Z.eqb_spec (py_round_div n 50) 0) as [E|E]; lia.
Qed.

Lemma nth_error_map_seq {A} (f : nat -> A) n : forall a i x,
  nth_error (map f (seq a n)) i = Some x -> x = f (a + i)%nat.
Proof.
  induction n as [|n IH]; intros a i x H.
  - destruct i; discriminate.
  - destruct i as [|i]; simpl in H.
    + injection H as <-. f_equal. lia.
    + apply IH in H. subst x. f_equal. lia.
Qed.

(** *** Slices *)

Lemma firstn_skipn_add {A} (l : list A) : forall a b,
  firstn a l ++ firstn b (skipn a l) = firstn (a + b)%nat l.
Proof.
  induction l as [|x l IH]; intros a b.
  - rewrite skipn_nil, !firstn_nil. reflexivity.
  - destruct a as [|a]; simpl; [reflexivity|].
    rewrite IH. reflexivity.
Qed.

Lemma py_slice_width {A} (l : list A) (a c : nat) :
  py_slice l a (a + c)%nat = firstn c (skipn a l).
Proof. unfold py_slice. f_equal. lia. Qed.

Lemma concat_slices {A} (l : list A) (c n : nat) :
  List.concat (map (fun i => py_slice l (i * c)%nat (i * c + c)%nat) (seq 0 n))
  = firstn (n * c)%nat l.
Proof.
  induction n as [|n IH].
  - reflexivity.
  - rewrite seq_S, map_app, concat_app, IH. simpl.
    rewrite app_nil_r, py_slice_width, firstn_skipn_add.
    f_equal. lia.
Qed.

Lemma ceil_div_covers (n c : nat) :
  (0 < c)%nat ->
  (n <= Z.to_nat (py_ceil_div (Z.of_nat n) (Z.of_nat c)) * c)%nat.
Proof.
  intros Hc. unfold py_ceil_div.
  set (N := Z.of_nat n). set (C := Z.of_nat c).
  assert (HC : 0 < C) by lia.
  pose proof (Z.div_mod (N + C - 1) C ltac:(lia)) as Hdm.
  pose proof (Z.mod_pos_bound (N + C - 1) C HC) as Hm.
  assert (Hq : 0 <= (N + C - 1) / C) by (apply Z.div_pos; lia).
  assert (N <= (N + C - 1) / C * C) by nia.
  apply Nat2Z.inj_le. rewrite Nat2Z.inj_mul, Z2Nat.id by exact Hq. exact H.
Qed.

Lemma chunks_length {A} (c : nat) (l : list A) :
  List.length (chunks c l)
  = Z.to_nat (py_ceil_div (Z.of_nat (List.length l)) (Z.of_nat c)).
Proof. unfold chunks, py_range. rewrite length_map, length_seq. reflexivity. Qed.

Lemma chunks_concat {A} (c : nat) (l : list A) :
  (0 < c)%nat -> List.concat (chunks c l) = l.
Proof.
  intros Hc. unfold chunks, py_range. rewrite concat_slices.
  apply firstn_all2. apply ceil_div_covers. exact Hc.
Qed.

Lemma chunks_bound {A} (c : nat) (l : list A) :
  Forall (fun chunk => (List.length chunk <= c)%nat) (chunks c l).
Proof.
  unfold chunks. apply Forall_forall. intros chunk Hin.
  apply in_map_iff in Hin. destruct Hin as (i & <- & _).
  rewrite py_slice_width. rewrite length_firstn. lia.
Qed.

Lemma chunks_nth {A} (c : nat) (l : list A) i chunk :
  nth_error (chunks c l) i = Some chunk ->
  chunk = py_slice l (i * c)%nat (i * c + c)%nat.
Proof.
  unfold chunks, py_range. intros H.
  apply nth_error_map_seq in H. exact H.
Qed.

(** *** Resolving languages *)

Lemma res_map_nth {A B} (f : A -> Res B) (l : list A) : forall r,
  res_map f l = Ok r ->
  forall i y, nth_error r i = Some y ->
  exists x, nth_error l i = Some x /\ f x = Ok y.
Proof.
  induction l as [|x l IH]; intros r H i y Hy.
  - injection H as <-. destruct i; discriminate.
  - cbn [res_map] in H.
    destruct (f x) as [y0|e] eqn:Hx; [|discriminate].
    cbn [res_bind] in H.
    destruct (res_map f l) as [ys|e] eqn:Hl; [|discriminate].
    injection H as <-.
    destruct i as [|i]; simpl in Hy.
    + injection Hy as <-. exists x. split; [reflexivity|exact Hx].
    + destruct (IH ys eq_refl i y Hy) as (x' & Hn & Hf).
      exists x'. split; assumption.
Qed.

Lemma resolve_lan_not_null out v : resolve_lan out = Ok v -> v <> JNull.
Proof.
  unfold resolve_lan.
  destruct (res_bind (lookup_json out) language_path) as [l|e].
  - destruct l; intros H; injection H as <-; discriminate.
  - destruct e; intros H; try discriminate; injection H as <-; discriminate.
Qed.

Lemma resolve_lan_fallback status j :
  language_path j = Ok JNull \/
  language_path j = Raise KeyError \/
  language_path j = Raise IndexError ->
  resolve_lan (Response status (Some j)) = Ok unidentified.
Proof.
  unfold resolve_lan. cbn [lookup_json res_bind].
  intros [H|[H|H]]; rewrite H; reflexivity.
Qed.

Lemma language_path_no_hits j r :
  subscript j "response" = Ok r ->
  subscript r "hits" = Ok (JArr []) ->
  language_path j = Raise IndexError.
Proof.
  intros Hr Hh. unfold language_path. rewrite Hr. cbn [res_bind].
  rewrite Hh. reflexivity.
Qed.

Lemma resolve_lan_failed out v : resolve_lan out = Ok v -> out <> Failed.
Proof. intros H ->. discriminate H. Qed.

Lemma resolve_lan_not_json status v : resolve_lan (Response status None) <> Ok v.
Proof. discriminate. Qed.

(** *** Keys, dicts and grouping *)

Lemma pykey_eqb_eq a b : pykey_eqb a b = true <-> a = b.
Proof.
  destruct a, b; simpl; split; intros H; try discriminate; try reflexivity.
  - apply Z.eqb_eq in H. subst. reflexivity.
  - injection H as ->. apply Z.eqb_refl.
  - apply String.eqb_eq in H. subst. reflexivity.
  - injection H as ->. apply String.eqb_refl.
Qed.

Lemma py_eqb_true a b :
  py_eqb a b = true <-> key_of a = key_of b /\ hashable a = true.
Proof.
  unfold py_eqb, hashable.
  destruct (key_of a) as [x|], (key_of b) as [y|]; split;
    try (intros H; discriminate H); try (intros [H1 H2]; discriminate).
  - intros H. apply pykey_eqb_eq in H. subst. split; reflexivity.
  - intros [H _]. injection H as ->. apply pykey_eqb_eq. reflexivity.
Qed.

Lemma py_eqb_false a b :
  hashable a = true -> py_eqb a b = false -> key_of a <> key_of b.
Proof.
  intros Ha Hf Heq.
  assert (py_eqb a b = true) by (apply py_eqb_true; split; assumption).
  congruence.
Qed.

Lemma filter_keeps_distinct_keys (keep : json -> bool) (ks : list json) :
  NoDup (map key_of ks) -> NoDup (map key_of (filter keep ks)).
Proof.
  intros Hnd. induction ks as [|k ks IH]; cbn [filter]; [constructor|].
  cbn [map] in Hnd. apply NoDup_cons_iff in Hnd. destruct Hnd as [Hfresh Hrest].
  destruct (keep k); [|exact (IH Hrest)].
  cbn [map]. apply NoDup_cons; [|exact (IH Hrest)].
  intros Hin. apply Hfresh.
  apply in_map_iff in Hin. destruct Hin as (k2 & Hsame & Hk2).
  rewrite <- Hsame. apply in_map. apply filter_In in Hk2. tauto.
Qed.

Lemma dedup_incl l x : In x (dedup l) -> In x l.
Proof.
  revert x. induction l as [|y l IH]; simpl; intros x H; [exact H|].
  destruct H as [H|H]; [left; exact H|].
  apply filter_In in H. right. apply IH. tauto.
Qed.

Lemma dedup_NoDup l :
  forallb hashable l = true -> NoDup (map key_of (dedup l)).
Proof.
  induction l as [|x l IH]; simpl; intros H; [constructor|].
  apply andb_true_iff in H. destruct H as [Hx Hl].
  constructor.
  - intros Hin. apply in_map_iff in Hin. destruct Hin as (y & Hy & Hin).
    apply filter_In in Hin. destruct Hin as [_ Hp].
    apply negb_true_iff in Hp. apply (py_eqb_false x y Hx Hp). symmetry. exact Hy.
  - apply filter_keeps_distinct_keys. apply IH. exact Hl.
Qed.

Lemma dedup_cover l x :
  forallb hashable l = true -> In x l -> In (key_of x) (map key_of (dedup l)).
Proof.
  induction l as [|y l IH]; simpl; intros H Hin; [contradiction|].
  apply andb_true_iff in H. destruct H as [Hy Hl].
  destruct Hin as [->|Hin]; [left; reflexivity|].
  specialize (IH Hl Hin). apply in_map_iff in IH. destruct IH as (z & Hz & Hin').
  destruct (py_eqb y z) eqn:E.
  - left. apply py_eqb_true in E. destruct E as [E _]. congruence.
  - right. apply in_map_iff. exists z. split; [exact Hz|].
    apply filter_In. split; [exact Hin'|]. rewrite E. reflexivity.
Qed.

Lemma dict_append_spec (d : pydict (list json)) k u :
  NoDup (map key_of (map fst d)) ->
  forallb hashable (map fst d) = true ->
  In (key_of k) (map key_of (map fst d)) ->
  dict_append d k u
  = Ok (map (fun kv => (fst kv, if py_eqb (fst kv) k then snd kv ++ [u] else snd kv)) d).
Proof.
  induction d as [|[k' us] d IH]; simpl; intros Hnd Hh Hin; [contradiction|].
  apply andb_true_iff in Hh. destruct Hh as [Hk' Hd].
  inversion Hnd as [|? ? Hnin Hnd']; subst.
  destruct (py_eqb k' k) eqn:E.
  - f_equal. f_equal. symmetry. rewrite <- (map_id d) at 2.
    apply map_ext_in. intros [k2 v2] Hin2. cbn [fst snd].
    destruct (py_eqb k2 k) eqn:E2; [|reflexivity].
    exfalso. apply Hnin.
    apply py_eqb_true in E. apply py_eqb_true in E2.
    destruct E as [E _], E2 as [E2 _]. rewrite E, <- E2.
    apply in_map. apply (in_map fst) in Hin2. exact Hin2.
  - destruct Hin as [Hin|Hin].
    + exfalso. apply (py_eqb_false k' k Hk' E). exact Hin.
    + rewrite (IH Hnd' Hd Hin). reflexivity.
Qed.

Lemma append_all_spec songs : forall (d : pydict (list json)),
  NoDup (map key_of (map fst d)) ->
  forallb hashable (map fst d) = true ->
  Forall (fun s => In (key_of (song_lan s)) (map key_of (map fst d))) songs ->
  append_all d songs
  = Ok (map (fun kv => (fst kv, snd kv ++ group_of songs (fst kv))) d).
Proof.
  induction songs as [|s songs IH]; intros d Hnd Hh Hall.
  - simpl. f_equal. rewrite <- (map_id d) at 1. apply map_ext.
    intros [k v]. unfold group_of. simpl. rewrite app_nil_r. reflexivity.
  - inversion Hall as [|? ? Hs Hrest]; subst.
    cbn [append_all]. rewrite (dict_append_spec d (song_lan s) (song_uri s) Hnd Hh Hs). cbn [res_bind].
    set (d' := map _ d).
    assert (Hk : map fst d' = map fst d).
    { subst d'. rewrite map_map. reflexivity. }
    rewrite IH; rewrite ?Hk; auto.
    f_equal. subst d'. rewrite map_map. apply map_ext.
    intros [k v]. cbn [fst snd]. unfold group_of. cbn [filter].
    destruct (py_eqb k (song_lan s)); [|reflexivity].
    cbn [map]. rewrite <- app_assoc. reflexivity.
Qed.

Lemma concat_insert_one (G : json -> list json) (x u : json) keys :
  NoDup (map key_of keys) ->
  In (key_of x) (map key_of keys) ->
  forallb hashable keys = true ->
  Permutation
    (List.concat (map (fun k => if py_eqb k x then u :: G k else G k) keys))
    (u :: List.concat (map G keys)).
Proof.
  induction keys as [|k ks IH]; simpl; intros Hnd Hin Hh; [contradiction|].
  apply andb_true_iff in Hh. destruct Hh as [Hk Hks].
  inversion Hnd as [|? ? Hnin Hnd']; subst.
  destruct (py_eqb k x) eqn:E.
  - simpl. constructor.
    apply Permutation_app_head.
    replace (map (fun k0 => if py_eqb k0 x then u :: G k0 else G k0) ks)
      with (map G ks); [apply Permutation_refl|].
    apply map_ext_in. intros k2 Hin2.
    destruct (py_eqb k2 x) eqn:E2; [|reflexivity].
    exfalso. apply Hnin.
    apply py_eqb_true in E. apply py_eqb_true in E2.
    destruct E as [E _], E2 as [E2 _]. rewrite E, <- E2. apply in_map. exact Hin2.
  - destruct Hin as [Hin|Hin].
    + exfalso. apply (py_eqb_false k x Hk E). exact Hin.
    + eapply Permutation_trans.
      * apply Permutation_app_head. apply IH; assumption.
      * apply Permutation_sym, Permutation_middle.
Qed.

Lemma flatten_groups keys songs :
  NoDup (map key_of keys) ->
  forallb hashable keys = true ->
  Forall (fun s => In (key_of (song_lan s)) (map key_of keys)) songs ->
  Permutation (List.concat (map (group_of songs) keys)) (map song_uri songs).
Proof.
  intros Hnd Hh. induction songs as [|s songs IH]; intros Hall.
  - unfold group_of. simpl. clear. induction keys; simpl; auto.
  - inversion Hall as [|? ? Hs Hrest]; subst.
    cbn [map].
    eapply Permutation_trans; [|apply perm_skip; apply IH; exact Hrest].
    replace (map (group_of (s :: songs)) keys)
      with (map (fun k => if py_eqb k (song_lan s)
                          then song_uri s :: group_of songs k
                          else group_of songs k) keys).
    + apply concat_insert_one; assumption.
    + apply map_ext. intros k. unfold group_of. cbn [filter].
      destruct (py_eqb k (song_lan s)); reflexivity.
Qed.

Lemma dict_lookup_in {V} (d : pydict V) k v :
  NoDup (map key_of (map fst d)) ->
  forallb hashable (map fst d) = true ->
  In (k, v) d -> dict_lookup d k = Some v.
Proof.
  induction d as [|[k' v'] d IH]; simpl; intros Hnd Hh Hin; [contradiction|].
  apply andb_true_iff in Hh. destruct Hh as [Hk' Hd].
  inversion Hnd as [|? ? Hnin Hnd']; subst.
  destruct Hin as [Hin|Hin].
  - injection Hin as -> ->.
    replace (py_eqb k k) with true; [reflexivity|].
    symmetry. apply py_eqb_true. split; [reflexivity|exact Hk'].
  - destruct (py_eqb k' k) eqn:E.
    + exfalso. apply Hnin. apply py_eqb_true in E. destruct E as [E _].
      rewrite E. apply in_map. apply (in_map fst) in Hin. exact Hin.
    + apply IH; assumption.
Qed.

Lemma firstn_seq_min k : forall a n, firstn k (seq a n) = seq a (Nat.min k n).
Proof.
  induction k as [|k IH]; intros a n; [reflexivity|].
  destruct n as [|n]; [reflexivity|].
  simpl. rewrite IH. reflexivity.
Qed.

(** *** How far the pages reach *)

(** X7.  The pages requested for a total of N entries fall short of N
    exactly when N is at least 50 and the rest of N by 50 is between 1 and
    24, or is 25 with an even quotient (the tie rounds down). *)
Theorem page_count_falls_short n :
  0 <= n ->
  (page_count n * 50 < n <->
   50 <= n /\ (0 < n mod 50 < 25 \/ (n mod 50 = 25 /\ Z.even (n / 50) = true))).
Proof.
  intros Hn.
  pose proof (Z.div_mod n 50 ltac:(lia)) as Hdm.
  pose proof (Z.mod_pos_bound n 50 ltac:(lia)) as Hm.
  assert (Hq : 0 <= n / 50) by (apply Z.div_pos; lia).
  unfold page_count, py_round_div. cbv zeta.
  destruct (Z.ltb_spec (2 * (n mod 50)) 50) as [H1|H1].
  - destruct (Z.eqb_spec (n / 50) 0) as [E|E]; split; intros H; lia.
  - destruct (Z.ltb_spec 50 (2 * (n mod 50))) as [H2|H2].
    + destruct (Z.eqb_spec (n / 50 + 1) 0) as [E|E]; split; intros H; lia.
    + assert (Hr : n mod 50 = 25) by lia.
      destruct (Z.even (n / 50)) eqn:Hev.
      * destruct (Z.eqb_spec (n / 50) 0) as [E|E]; split; intros H.
        -- lia.
        -- lia.
        -- split; [lia|]. right. split; [exact Hr|reflexivity].
        -- lia.
      * destruct (Z.eqb_spec (n / 50 + 1) 0) as [E|E]; split; intros H.
        -- lia.
        -- lia.
        -- lia.
        -- destruct H as [_ [H|[_ H]]]; [lia|discriminate H].
Qed.

Lemma page_count_short n :
  50 <= n -> 0 < n mod 50 < 25 -> page_count n = n / 50.
Proof.
  intros Hn Hr.
  assert (Hq : 1 <= n / 50) by (apply Z.div_le_lower_bound; lia).
  unfold page_count, py_round_div. cbv zeta.
  destruct (Z.ltb_spec (2 * (n mod 50)) 50) as [H1|H1]; [|lia].
  destruct (Z.eqb_spec (n / 50) 0) as [E|E]; lia.
Qed.

(** *** Building songs *)

Lemma res_map_length {A B} (f : A -> Res B) (l : list A) : forall r,
  res_map f l = Ok r -> List.length r = List.length l.
Proof.
  induction l as [|x l IH]; intros r H.
  - injection H as <-. reflexivity.
  - cbn [res_map] in H.
    destruct (f x) as [y|e]; [|discriminate]. cbn [res_bind] in H.
    destruct (res_map f l) as [ys|e]; [|discriminate].
    injection H as <-. cbn [List.length]. f_equal. apply IH. reflexivity.
Qed.

Lemma res_map_raises {A B} (f : A -> Res B) (l : list A) x e :
  In x l -> f x = Raise e -> exists e', res_map f l = Raise e'.
Proof.
  induction l as [|y l IH]; intros Hin Hx; [contradiction|].
  cbn [res_map]. destruct Hin as [->|Hin].
  - rewrite Hx. exists e. reflexivity.
  - destruct (f y) as [z|e1]; [|exists e1; reflexivity]. cbn [res_bind].
    destruct (IH Hin Hx) as (e' & ->). exists e'. reflexivity.
Qed.

Lemma song_of_item_fields item s :
  song_of_item item = Ok s ->
  song_lan s = JNull /\ track_uri item = Ok (song_uri s).
Proof.
  unfold song_of_item, track_uri.
  destruct (subscript item "track") as [t|e]; [|discriminate]. cbn [res_bind].
  destruct (subscript t "name") as [n|e]; [|discriminate]. cbn [res_bind].
  destruct (subscript t "artists") as [a|e]; [|discriminate]. cbn [res_bind].
  destruct (subscript0 a) as [a0|e]; [|discriminate]. cbn [res_bind].
  destruct (subscript a0 "name") as [an|e]; [|discriminate]. cbn [res_bind].
  destruct (subscript t "uri") as [u|e]; [|discriminate]. cbn [res_bind].
  intros H. injection H as <-. split; reflexivity.
Qed.

(** *** Looking keys up *)

Lemma py_eqb_same_key a b c :
  py_eqb a b = true -> py_eqb a c = py_eqb b c.
Proof.
  intros H. apply py_eqb_true in H. destruct H as [Hk Ha].
  unfold py_eqb. rewrite Hk. reflexivity.
Qed.

Lemma py_eqb_sym a b : py_eqb a b = true -> py_eqb b a = true.
Proof.
  intros H. apply py_eqb_true in H. destruct H as [Hk Ha].
  apply py_eqb_true. split; [symmetry; exact Hk|].
  unfold hashable in *. rewrite <- Hk. exact Ha.
Qed.

Lemma dict_lookup_set {V} (d : pydict V) k v k' :
  hashable k = true ->
  dict_lookup (dict_set d k v) k'
  = if py_eqb k k' then Some v else dict_lookup d k'.
Proof.
  intros Hk. induction d as [|[k0 v0] d IH]; cbn [dict_set dict_lookup].
  - reflexivity.
  - destruct (py_eqb k0 k) eqn:E0; cbn [dict_lookup].
    + rewrite (py_eqb_same_key k0 k k' E0).
      destruct (py_eqb k k'); reflexivity.
    + rewrite IH.
      destruct (py_eqb k0 k') eqn:E1; [|reflexivity].
      destruct (py_eqb k k') eqn:E2; [|reflexivity].
      exfalso.
      apply py_eqb_sym in E2.
      rewrite (py_eqb_same_key k0 k' k E1), E2 in E0. discriminate E0.
Qed.

Lemma dict_lookup_same_key {V} (d : pydict V) k k' v :
  NoDup (map key_of (map fst d)) ->
  forallb hashable (map fst d) = true ->
  In (k, v) d -> py_eqb k k' = true -> dict_lookup d k' = Some v.
Proof.
  induction d as [|[k0 v0] d IH]; simpl; intros Hnd Hh Hin He; [contradiction|].
  apply andb_true_iff in Hh. destruct Hh as [Hk0 Hd].
  inversion Hnd as [|? ? Hnin Hnd']; subst.
  destruct Hin as [Hin|Hin].
  - injection Hin as -> ->. rewrite He. reflexivity.
  - destruct (py_eqb k0 k') eqn:E.
    + exfalso. apply Hnin.
      apply py_eqb_true in E. apply py_eqb_true in He.
      destruct E as [E _], He as [He _]. rewrite E, <- He.
      apply in_map. apply (in_map fst) in Hin. exact Hin.
    + apply IH; assumption.
Qed.

Lemma find_last {A} (f : A -> bool) (l : list A) (x : A) :
  find f (l ++ [x])
  = match find f l with
    | Some y => Some y
    | None => if f x then Some x else None
    end.
Proof.
  induction l as [|y l IH]; cbn [app find]; [reflexivity|].
  destruct (f y); [reflexivity|exact IH].
Qed.

Lemma names_dict_lookup ps : forall d names k,
  names_dict d ps = Ok names ->
  dict_lookup names k
  = match find (fun p => py_eqb (playlist_name p) k) (rev ps) with
    | Some p => Some (playlist_id p)
    | None => dict_lookup d k
    end.
Proof.
  induction ps as [|p ps IH]; intros d names k H.
  - injection H as <-. reflexivity.
  - cbn [names_dict] in H.
    destruct (hashable (playlist_name p)) eqn:Hh; [|discriminate].
    rewrite (IH _ names k H). cbn [rev]. rewrite find_last.
    destruct (find _ (rev ps)); [reflexivity|].
    rewrite (dict_lookup_set d (playlist_name p) (playlist_id p) k Hh).
    destruct (py_eqb (playlist_name p) k); reflexivity.
Qed.

(** X21.  In the dict of the playlists by name a name leads to the id of
    the last listed playlist that carries it: of two playlists of one
    name, the later one is the one [process] reuses. *)
Theorem playlist_names_last_wins ps names k :
  names_dict [] ps = Ok names ->
  dict_lookup names k
  = option_map playlist_id (find (fun p => py_eqb (playlist_name p) k) (rev ps)).
Proof.
  intros H. rewrite (names_dict_lookup ps [] names k H).
  destruct (find _ (rev ps)); reflexivity.
Qed.

Lemma some_unhashable l :
  forallb hashable l = false <-> exists x, In x l /\ hashable x = false.
Proof.
  induction l as [|y l IH]; cbn [forallb].
  - split; [discriminate|]. intros (x & [] & _).
  - destruct (hashable y) eqn:Hy; cbn [andb].
    + rewrite IH. split.
      * intros (x & Hin & Hx). exists x. split; [right; exact Hin|exact Hx].
      * intros (x & [->|Hin] & Hx); [congruence|]. exists x. split; assumption.
    + split; [|reflexivity]. intros _. exists y. split; [left; reflexivity|exact Hy].
Qed.

Section Properties.

Variable World : Type.
Variable remote : World -> Request -> World * Outcome.
Variable genius : nat -> json -> json -> Outcome.
Variable set_order : list json -> list json.
Variables CLIENT_ID SECRET_KEY : string.
Variable URI : json.

(** A set hands out each of its elements once, in some order. *)
Hypothesis set_order_perm : forall l, Permutation (set_order l) l.

Lemma make_call_run m ep hd d p (st : State World) :
  make_call remote m ep hd d p st =
  (call_result (snd (remote (world st) (request_in st m ep hd d p))),
   after_call remote st (request_in st m ep hd d p)).
Proof.
  unfold make_call, after_call, request_in, sent_headers.
  set (req := mkRequest m ep _ d p).
  destruct (remote (world st) req) as [w out]; simpl.
  destruct out as [|status body]; simpl.
  - reflexivity.
  - destruct body; destruct (status =? 200); simpl;
      unfold record_call, add_log; simpl; rewrite ?app_nil_r; reflexivity.
Qed.

Lemma fetch_page_run ep hd d page (st : State World) :
  fetch_page remote ep hd d page st =
  (page_items (snd (remote (world st) (request_in st GET ep hd d (page_params page)))),
   after_call remote st (request_in st GET ep hd d (page_params page))).
Proof.
  unfold fetch_page, bind, lift. rewrite make_call_run.
  unfold page_items.
  destruct (call_result _); reflexivity.
Qed.

Lemma get_resource_loop_cons ep hd d page rest items (st : State World) :
  get_resource_loop remote ep hd d (page :: rest) items st =
  let req := request_in st GET ep hd d (page_params page) in
  match page_items (snd (remote (world st) req)) with
  | Ok new => get_resource_loop remote ep hd d rest (items ++ new) (after_call remote st req)
  | Raise e =>
      get_resource_loop remote ep hd d rest items
        (add_log (LogPageException ep page e) (after_call remote st req))
  end.
Proof.
  cbn [get_resource_loop]. unfold bind, try_except, ret, logging.
  rewrite fetch_page_run.
  destruct (page_items _); reflexivity.
Qed.

(** The loop of [get_resource], read from the events it leaves: one
    request per page, in page order; the pages that came back add their
    items, the others a log entry; the loop always returns. *)
Lemma get_resource_loop_run ep hd d pages :
  forall items (st : State World),
  exists evs,
    fst (get_resource_loop remote ep hd d pages items st)
      = Ok (items ++ flat_map contributed evs) /\
    trace (snd (get_resource_loop remote ep hd d pages items st))
      = trace st ++ evs /\
    map fst evs
      = map (fun page => request_in st GET ep hd d (page_params page)) pages /\
    log (snd (get_resource_loop remote ep hd d pages items st))
      = log st ++ pages_log ep pages evs /\
    api_headers (snd (get_resource_loop remote ep hd d pages items st))
      = api_headers st /\
    user_id (snd (get_resource_loop remote ep hd d pages items st))
      = user_id st.
Proof.
  induction pages as [|page rest IH]; intros items st.
  - exists []. simpl. rewrite !app_nil_r. repeat split; reflexivity.
  - rewrite get_resource_loop_cons. cbv zeta.
    set (req := request_in st GET ep hd d (page_params page)).
    set (out := snd (remote (world st) req)).
    destruct (page_items out) as [new|e] eqn:Hp.
    + destruct (IH (items ++ new) (after_call remote st req))
        as (evs & Hr & Ht & Hq & Hl & Hh & Hu).
      assert (Hc : contributed (req, out) = new)
        by (unfold contributed; cbn [snd]; rewrite Hp; reflexivity).
      assert (Hg : page_log ep page (req, out) = call_log req out)
        by (unfold page_log; cbn [fst snd]; rewrite Hp; apply app_nil_r).
      exists ((req, out) :: evs).
      rewrite Hr, Ht, Hl, Hh, Hu.
      cbn [flat_map map fst pages_log]. rewrite Hc, Hg.
      cbn [after_call trace log api_headers user_id]. fold out.
      rewrite <- !app_assoc.
      repeat split; try reflexivity.
      f_equal. exact Hq.
    + destruct (IH items (add_log (LogPageException ep page e) (after_call remote st req)))
        as (evs & Hr & Ht & Hq & Hl & Hh & Hu).
      assert (Hc : contributed (req, out) = [])
        by (unfold contributed; cbn [snd]; rewrite Hp; reflexivity).
      assert (Hg : page_log ep page (req, out)
                   = call_log req out ++ [LogPageException ep page e])
        by (unfold page_log; cbn [fst snd]; rewrite Hp; reflexivity).
      exists ((req, out) :: evs).
      rewrite Hr, Ht, Hl, Hh, Hu.
      cbn [flat_map map fst pages_log]. rewrite Hc, Hg.
      cbn [add_log after_call trace log api_headers user_id]. fold out.
      rewrite <- !app_assoc.
      repeat split; try reflexivity.
      f_equal. exact Hq.
Qed.

Lemma get_resource_run ep hd d params (st : State World) :
  get_resource remote ep hd d params st =
  let req := request_in st GET ep hd d params in
  match reported_total (snd (remote (world st) req)) with
  | Ok total =>
      get_resource_loop remote ep hd d (py_range (page_count total)) []
                        (after_call remote st req)
  | Raise e => (Raise e, after_call remote st req)
  end.
Proof.
  unfold get_resource, bind, lift, reported_total. rewrite make_call_run.
  cbv zeta.
  destruct (call_result _) as [r|e]; cbn [res_bind]; [|reflexivity].
  destruct (subscript r "total") as [t|e]; cbn [res_bind]; [|reflexivity].
  destruct (as_number t); reflexivity.
Qed.

Lemma pages_log_failure ep pages : forall evs i ev e,
  List.length evs = List.length pages ->
  nth_error evs i = Some ev ->
  page_items (snd ev) = Raise e ->
  forall page, nth_error pages i = Some page ->
  In (LogPageException ep page e) (pages_log ep pages evs).
Proof.
  induction pages as [|p ps IH]; intros evs i ev e Hlen Hev Hit page Hpage.
  - destruct i; discriminate.
  - destruct evs as [|ev0 es]; [discriminate|].
    cbn [pages_log]. apply in_or_app.
    destruct i as [|i]; simpl in Hev, Hpage.
    + injection Hev as ->. injection Hpage as ->.
      left. unfold page_log. rewrite Hit. apply in_or_app. right. left. reflexivity.
    + right. apply (IH es i ev e); auto.
Qed.

(** C1.  When the first request of [get_resource] reports a total of N
    items, the requests that follow it are exactly max(1, round(N/50))
    page requests, the one of index i with offset = i * 50 and limit =
    50, and the list returned is the concatenation, in page order, of
    what the pages brought: the items array of each page that answered
    with one. *)
Theorem get_resource_page_requests ep hd d params (st : State World) N :
  reported_total (snd (remote (world st) (request_in st GET ep hd d params))) = Ok N ->
  0 <= N ->
  exists evs,
    trace (snd (get_resource remote ep hd d params st))
      = trace (after_call remote st (request_in st GET ep hd d params)) ++ evs /\
    List.length evs = Z.to_nat (Z.max 1 (py_round_div N 50)) /\
    (forall i ev, nth_error evs i = Some ev ->
       fst ev = mkRequest GET ep (sent_headers hd (api_headers st)) d
                          [("offset", Z.of_nat i * 50); ("limit", 50)]) /\
    fst (get_resource remote ep hd d params st) = Ok (flat_map contributed evs) /\
    (forall ev status j l, In ev evs ->
       snd ev = Response status (Some j) -> subscript j "items" = Ok (JArr l) ->
       contributed ev = l).
Proof.
  intros Htot HN. rewrite get_resource_run. cbv zeta. rewrite Htot.
  destruct (get_resource_loop_run ep hd d (py_range (page_count N)) []
              (after_call remote st (request_in st GET ep hd d params)))
    as (evs & Hr & Ht & Hq & _).
  exists evs. rewrite Hr, Ht.
  split; [reflexivity|]. split; [|split; [|split; [reflexivity|]]].
  - rewrite <- (length_map fst evs). rewrite Hq, length_map.
    unfold py_range. rewrite length_seq, page_count_max by exact HN. reflexivity.
  - intros i ev Hev.
    apply (map_nth_error fst) in Hev. rewrite Hq in Hev.
    apply nth_error_map_seq in Hev. exact Hev.
  - intros ev status j l _ Hout Hitems.
    unfold contributed, page_items. rewrite Hout. cbn [call_result res_bind].
    rewrite Hitems. reflexivity.
Qed.

(** C7.  A page request of [get_resource] that fails is logged and
    skipped: every page of the range is still requested once, in order
    (no retry, no abort), [get_resource] returns normally, the failed
    page adds nothing to the list returned, and the log holds the entry
    of that page. *)
Theorem get_resource_skips_failed_pages ep hd d params (st : State World) N :
  reported_total (snd (remote (world st) (request_in st GET ep hd d params))) = Ok N ->
  exists evs,
    trace (snd (get_resource remote ep hd d params st))
      = trace (after_call remote st (request_in st GET ep hd d params)) ++ evs /\
    map fst evs
      = map (fun page => mkRequest GET ep (sent_headers hd (api_headers st)) d
                                   (page_params page))
            (py_range (page_count N)) /\
    fst (get_resource remote ep hd d params st) = Ok (flat_map contributed evs) /\
    (forall i ev e, nth_error evs i = Some ev -> page_items (snd ev) = Raise e ->
       contributed ev = [] /\
       In (LogPageException ep i e)
          (log (snd (get_resource remote ep hd d params st)))).
Proof.
  intros Htot. rewrite get_resource_run. cbv zeta. rewrite Htot.
  destruct (get_resource_loop_run ep hd d (py_range (page_count N)) []
              (after_call remote st (request_in st GET ep hd d params)))
    as (evs & Hr & Ht & Hq & Hl & _).
  exists evs. rewrite Hr, Ht, Hl.
  split; [reflexivity|]. split; [exact Hq|]. split; [reflexivity|].
  intros i ev e H H0. split.
  - unfold contributed. rewrite H0. reflexivity.
  - apply in_or_app. right.
    assert (Hlen : List.length evs = List.length (py_range (page_count N))).
    { rewrite <- (length_map fst evs). rewrite Hq, length_map. reflexivity. }
    apply (@pages_log_failure ep (py_range (page_count N)) evs i ev e); auto.
    unfold py_range.
    assert (Hi : (i < List.length evs)%nat)
      by (apply nth_error_Some; rewrite H; discriminate).
    rewrite Hlen in Hi. unfold py_range in Hi. rewrite length_seq in Hi.
    rewrite nth_error_seq. 
    destruct (Nat.ltb_spec i (Z.to_nat (page_count N))); [reflexivity|lia].
Qed.

(** *** [update_playlist] *)

Lemma for_each_cons {A} (x : A) rest (body : A -> M World unit) (st : State World) :
  for_each (x :: rest) body st =
  match body x st with
  | (Ok _, st1) => for_each rest body st1
  | (Raise e, st1) => (Raise e, st1)
  end.
Proof. reflexivity. Qed.

Lemma call_then_unit_run m ep hd d p (st : State World) :
  bind (make_call remote m ep hd d p) (fun _ => ret tt) st =
  (res_bind (call_result (snd (remote (world st) (request_in st m ep hd d p))))
            (fun _ => Ok tt),
   after_call remote st (request_in st m ep hd d p)).
Proof.
  unfold bind. rewrite make_call_run.
  destruct (call_result _); reflexivity.
Qed.

Lemma update_loop_run pid songs idx : forall (st : State World),
  let run := for_each idx
               (fun i => bind (make_call remote POST (EpPlaylistTracks pid) NoHeaders
                                         (Some (append_body songs i)) [])
                              (fun _ => ret tt)) st in
  exists evs,
    trace (snd run) = trace st ++ evs /\
    api_headers (snd run) = api_headers st /\
    user_id (snd run) = user_id st /\
    map fst evs
      = map (fun i => mkRequest POST (EpPlaylistTracks pid) (api_headers st)
                                (Some (append_body songs i)) [])
            (firstn (List.length evs) idx) /\
    (fst run = Ok tt -> List.length evs = List.length idx).
Proof.
  induction idx as [|i rest IH]; intros st run.
  - exists []. subst run. simpl. rewrite app_nil_r. repeat split; reflexivity.
  - subst run. rewrite for_each_cons, call_then_unit_run.
    set (req := request_in st POST (EpPlaylistTracks pid) NoHeaders
                           (Some (append_body songs i)) []).
    destruct (call_result (snd (remote (world st) req))) as [r|e];
      cbn [res_bind].
    + destruct (IH (after_call remote st req)) as (evs & Ht & Hh & Hu & Hq & Hk).
      exists ((req, snd (remote (world st) req)) :: evs).
      rewrite Ht, Hh, Hu. cbn [after_call trace api_headers user_id].
      rewrite <- app_assoc.
      split; [reflexivity|]. split; [reflexivity|]. split; [reflexivity|]. split.
      * cbn [List.length firstn map fst]. f_equal. exact Hq.
      * intros Hok. cbn [List.length]. f_equal. apply Hk. exact Hok.
    + exists [(req, snd (remote (world st) req))].
      cbn [snd fst after_call trace api_headers user_id List.length firstn map].
      split; [reflexivity|]. split; [reflexivity|]. split; [reflexivity|]. split.
      * reflexivity.
      * discriminate.
Qed.

(** C5.  Whenever [update_playlist] runs to its end (no append call
    raises), the requests it issued are, in order, one append request per
    slice [U[i*90 : i*90+90]], ceil(len(U)/90) of them, each slice of at
    most 90 uris, the body made of the [uris] field alone (no
    [position]); the slices put end to end give back U; an empty U issues
    no request. *)
Theorem update_playlist_chunks pid (U : list json) (st : State World) :
  fst (update_playlist remote pid U st) = Ok tt ->
  exists evs,
    trace (snd (update_playlist remote pid U st)) = trace st ++ evs /\
    map fst evs
      = map (fun chunk => mkRequest POST (EpPlaylistTracks pid) (api_headers st)
                                    (Some (JObj [("uris", JArr chunk)])) [])
            (chunks 90 U) /\
    List.length evs = Z.to_nat (py_ceil_div (Z.of_nat (List.length U)) 90) /\
    Forall (fun chunk => (List.length chunk <= 90)%nat) (chunks 90 U) /\
    (forall i chunk, nth_error (chunks 90 U) i = Some chunk ->
       chunk = py_slice U (i * 90)%nat (i * 90 + 90)%nat) /\
    List.concat (chunks 90 U) = U /\
    (U = [] -> evs = []).
Proof.
  intros Hok. unfold update_playlist in *.
  destruct (update_loop_run pid U
              (py_range (py_ceil_div (Z.of_nat (List.length U)) 90)) st)
    as (evs & Ht & _ & _ & Hq & Hk).
  cbv zeta in Ht, Hq, Hk. specialize (Hk Hok).
  exists evs. split; [exact Ht|].
  assert (Hlen : List.length evs
                 = Z.to_nat (py_ceil_div (Z.of_nat (List.length U)) 90)).
  { rewrite Hk. unfold py_range. apply length_seq. }
  split.
  - rewrite Hq, Hk, firstn_all. unfold chunks. rewrite map_map. reflexivity.
  - split; [exact Hlen|]. split; [apply chunks_bound|].
    split; [intros i chunk; apply chunks_nth|].
    split; [apply chunks_concat; lia|].
    intros ->. destruct evs; [reflexivity|]. discriminate Hlen.
Qed.

(** *** [empty_playlist] *)

Lemma empty_round_run pid (st : State World) :
  empty_round remote pid st =
  let req1 := request_in st GET (EpPlaylistTracks pid) NoHeaders None [("limit", 50)] in
  let st1 := after_call remote st req1 in
  match page_uris (snd (remote (world st) req1)) with
  | Ok uris =>
      let req2 := request_in st1 DELETE (EpPlaylistTracks pid) NoHeaders
                             (Some (removal_body uris)) [] in
      (res_bind (call_result (snd (remote (world st1) req2))) (fun _ => Ok tt),
       after_call remote st1 req2)
  | Raise e => (Raise e, st1)
  end.
Proof.
  unfold empty_round. unfold bind at 1. rewrite make_call_run. cbv zeta.
  unfold page_uris.
  destruct (call_result _) as [page|e]; cbn [res_bind]; [|reflexivity].
  unfold bind at 1. unfold lift.
  destruct (res_bind (res_bind (subscript page "items") py_iter) (res_map track_uri))
    as [uris|e]; [|reflexivity].
  apply call_then_unit_run.
Qed.

Lemma empty_loop_run pid idx : forall (st : State World),
  let run := for_each idx (fun _ : nat => empty_round remote pid) st in
  exists evs,
    trace (snd run) = trace st ++ evs /\
    forallb (fun ev => negb (is_total_query ev)) evs = true /\
    (fst run = Ok tt ->
     removal_rounds pid (api_headers st) evs (List.length idx)).
Proof.
  induction idx as [|i rest IH]; intros st run; subst run.
  - exists []. simpl. rewrite app_nil_r. repeat split; reflexivity.
  - rewrite for_each_cons, empty_round_run. cbv zeta.
    set (req1 := request_in st GET (EpPlaylistTracks pid) NoHeaders None [("limit", 50)]).
    set (out1 := snd (remote (world st) req1)).
    set (st1 := after_call remote st req1).
    destruct (page_uris out1) as [uris|e] eqn:Hu.
    + set (req2 := request_in st1 DELETE (EpPlaylistTracks pid) NoHeaders
                              (Some (removal_body uris)) []).
      set (out2 := snd (remote (world st1) req2)).
      destruct (call_result out2) as [r|e]; cbn [res_bind].
      * destruct (IH (after_call remote st1 req2)) as (evs & Ht & Hn & Hr).
        exists ((req1, out1) :: (req2, out2) :: evs).
        rewrite Ht. unfold st1 at 1. cbn [after_call trace]. rewrite <- !app_assoc.
        split; [reflexivity|]. split; [exact Hn|].
        intros Hok. cbn [List.length removal_rounds].
        split; [reflexivity|]. split.
        -- exists uris. split; [exact Hu|reflexivity].
        -- apply Hr. exact Hok.
      * exists [(req1, out1); (req2, out2)].
        unfold st1 at 1. cbn [snd fst after_call trace]. rewrite <- !app_assoc.
        split; [reflexivity|]. split; [reflexivity|]. discriminate.
    + exists [(req1, out1)]. cbn [snd fst].
      split; [reflexivity|]. split; [reflexivity|]. discriminate.
Qed.

Lemma empty_playlist_run pid (st : State World) :
  empty_playlist remote pid st =
  let req := request_in st GET (EpPlaylistTracks pid) NoHeaders None [] in
  match reported_total (snd (remote (world st) req)) with
  | Ok total =>
      for_each (py_range (py_ceil_div total 50)) (fun _ => empty_round remote pid)
               (after_call remote st req)
  | Raise e => (Raise e, after_call remote st req)
  end.
Proof.
  unfold empty_playlist, bind, lift, reported_total. rewrite make_call_run.
  cbv zeta.
  destruct (call_result _) as [r|e]; cbn [res_bind]; [|reflexivity].
  destruct (subscript r "total") as [t|e]; cbn [res_bind]; [|reflexivity].
  destruct (as_number t); reflexivity.
Qed.

(** C4, as amended.  [empty_playlist] reads the total once, from its
    first request; when that request reports N and the run reaches its
    end, what follows is exactly ceil(N/50) turns, each a request for a
    page of at most 50 entries followed by one removal request for the
    uris of exactly that page, and none of these requests asks for the
    total again. *)
Theorem empty_playlist_rounds pid (st : State World) N :
  reported_total (snd (remote (world st)
     (request_in st GET (EpPlaylistTracks pid) NoHeaders None []))) = Ok N ->
  fst (empty_playlist remote pid st) = Ok tt ->
  exists out evs,
    trace (snd (empty_playlist remote pid st))
      = trace st ++
        (mkRequest GET (EpPlaylistTracks pid) (api_headers st) None [], out) :: evs /\
    reported_total out = Ok N /\
    removal_rounds pid (api_headers st) evs (Z.to_nat (py_ceil_div N 50)) /\
    forallb (fun ev => negb (is_total_query ev)) evs = true.
Proof.
  intros Htot. rewrite empty_playlist_run. cbv zeta. rewrite Htot. intros Hok.
  set (req := request_in st GET (EpPlaylistTracks pid) NoHeaders None []) in *.
  destruct (empty_loop_run pid (py_range (py_ceil_div N 50)) (after_call remote st req))
    as (evs & Ht & Hn & Hr).
  exists (snd (remote (world st) req)), evs.
  rewrite Ht. cbn [after_call trace]. rewrite <- app_assoc.
  split; [reflexivity|]. split; [exact Htot|]. split; [|exact Hn].
  specialize (Hr Hok). unfold py_range in Hr. rewrite length_seq in Hr. exact Hr.
Qed.

(** *** [create_playlist] *)

Lemma sent_headers_same h : sent_headers h h = h.
Proof. destruct h; reflexivity. Qed.

(** A turn of the loop of [create_playlist] sends its request and then
    raises: [make_call] hands back the decoded body, which has no
    [status_code]. *)
Lemma create_loop_cons name pid songs i rest (st : State World) :
  create_loop remote name pid songs (i :: rest) st =
  let req := mkRequest POST (EpPlaylistTracks pid) (api_headers st)
                       (Some (create_body songs i)) [] in
  (res_bind (call_result (snd (remote (world st) req)))
            (fun _ => Raise AttributeError),
   after_call remote st req).
Proof.
  cbn [create_loop]. unfold bind at 1. rewrite make_call_run.
  unfold request_in. rewrite sent_headers_same. cbv zeta.
  destruct (call_result _) as [r|e]; cbn [res_bind]; [|reflexivity].
  unfold bind, lift. destruct r; reflexivity.
Qed.

Lemma create_playlist_run name songs (st : State World) :
  create_playlist remote name songs st =
  match user_id st with
  | None => (Raise AttributeError, st)
  | Some uid =>
      let req := request_in st POST (EpUserPlaylists uid) NoHeaders
                   (Some (JObj [("name", name); ("public", JBool false)])) [] in
      let st1 := after_call remote st req in
      match res_bind (call_result (snd (remote (world st) req)))
                     (fun r => dict_get_method r "id") with
      | Raise e => (Raise e, st1)
      | Ok pid =>
          if negb (truthy pid)
          then (Ok false, add_log (LogCreateFailed name) st1)
          else create_loop remote name pid songs
                 (py_range (py_ceil_div (Z.of_nat (List.length songs)) 90)) st1
      end
  end.
Proof.
  unfold create_playlist. unfold bind at 1. unfold read_user_id.
  destruct (user_id st) as [uid|]; [|reflexivity].
  unfold bind at 1. rewrite make_call_run. cbv zeta.
  destruct (call_result _) as [r|e]; cbn [res_bind]; [|reflexivity].
  unfold bind at 1. unfold lift.
  destruct (dict_get_method r "id") as [pid|e]; [|reflexivity].
  destruct (negb (truthy pid)); reflexivity.
Qed.

Lemma range_ceil_nonempty (n : nat) :
  py_range (py_ceil_div (Z.of_nat (S n)) 90)
  = 0%nat :: seq 1 (Z.to_nat (py_ceil_div (Z.of_nat (S n)) 90) - 1).
Proof.
  unfold py_range, py_ceil_div.
  assert (H : 1 <= (Z.of_nat (S n) + 90 - 1) / 90).
  { apply Z.div_le_lower_bound; lia. }
  destruct (Z.to_nat ((Z.of_nat (S n) + 90 - 1) / 90)) as [|k] eqn:E; [lia|].
  simpl. rewrite Nat.sub_0_r. reflexivity.
Qed.

(** With a song to add, [create_playlist] never returns [True]. *)
Lemma create_playlist_never_true name s songs (st : State World) :
  fst (create_playlist remote name (s :: songs) st) <> Ok true.
Proof.
  rewrite create_playlist_run.
  destruct (user_id st) as [uid|]; [|discriminate].
  cbv zeta.
  destruct (res_bind _ _) as [pid|e]; [|discriminate].
  destruct (negb (truthy pid)); [discriminate|].
  cbn [List.length]. rewrite range_ceil_nonempty, create_loop_cons. cbv zeta.
  cbn [fst]. destruct (call_result _); discriminate.
Qed.

(** Without an id in the answer to the creation call, [create_playlist]
    returns [False] and has sent nothing but the creation request. *)
Lemma create_playlist_no_id name songs (st : State World) uid pid :
  user_id st = Some uid ->
  res_bind (call_result (snd (remote (world st)
              (request_in st POST (EpUserPlaylists uid) NoHeaders
                 (Some (JObj [("name", name); ("public", JBool false)])) []))))
           (fun r => dict_get_method r "id") = Ok pid ->
  truthy pid = false ->
  fst (create_playlist remote name songs st) = Ok false /\
  exists out,
    trace (snd (create_playlist remote name songs st))
    = trace st ++
      [(mkRequest POST (EpUserPlaylists uid) (api_headers st)
                  (Some (JObj [("name", name); ("public", JBool false)])) [], out)].
Proof.
  intros Hu Hid Hf. rewrite create_playlist_run, Hu. cbv zeta.
  rewrite Hid, Hf. cbn [negb fst snd add_log after_call trace].
  split; [reflexivity|]. eexists. reflexivity.
Qed.

(** The requests of [create_playlist] that carry uris: at most the one
    of the first slice. *)
Lemma create_playlist_appends name songs (st : State World) :
  exists evs,
    trace (snd (create_playlist remote name songs st)) = trace st ++ evs /\
    (List.concat (map submitted_uris (filter targets_tracks evs)) = [] \/
     List.concat (map submitted_uris (filter targets_tracks evs)) = firstn 90 songs).
Proof.
  rewrite create_playlist_run.
  destruct (user_id st) as [uid|].
  2:{ exists []. rewrite app_nil_r. split; [reflexivity|]. left. reflexivity. }
  cbv zeta.
  set (req := request_in st POST (EpUserPlaylists uid) NoHeaders _ []).
  destruct (res_bind _ _) as [pid|e].
  2:{ exists [(req, snd (remote (world st) req))]. split; [reflexivity|].
      left. reflexivity. }
  destruct (negb (truthy pid)).
  { exists [(req, snd (remote (world st) req))]. split; [reflexivity|].
    left. reflexivity. }
  destruct songs as [|s songs].
  { exists [(req, snd (remote (world st) req))]. split; [reflexivity|].
    left. reflexivity. }
  cbn [List.length]. rewrite range_ceil_nonempty, create_loop_cons. cbv zeta.
  cbn [snd after_call trace api_headers].
  eexists. rewrite <- app_assoc. split; [reflexivity|].
  right. cbn. rewrite app_nil_r. reflexivity.
Qed.

(** *** [authorize] and the start of [process] *)

Lemma authorize_failure code (st : State World) e :
  access_token_of (snd (remote (world st) (token_request CLIENT_ID SECRET_KEY URI code)))
    = Raise e ->
  authorize remote CLIENT_ID SECRET_KEY URI code st =
  (Ok None,
   add_log (LogTokenException e)
     (record_call (token_request CLIENT_ID SECRET_KEY URI code,
                   snd (remote (world st) (token_request CLIENT_ID SECRET_KEY URI code)))
                  (fst (remote (world st) (token_request CLIENT_ID SECRET_KEY URI code)))
                  st)).
Proof.
  intros H. unfold authorize, bind, try_except, token_exchange, logging, ret.
  destruct (remote (world st) _) as [w out]. cbn [fst snd] in *.
  rewrite H. reflexivity.
Qed.

Lemma process_run code (w : World) :
  process remote genius set_order CLIENT_ID SECRET_KEY URI code w =
  match authorize remote CLIENT_ID SECRET_KEY URI code
                  (add_log (LogInfo "Process started") (init w)) with
  | (Ok tok, st1) =>
      if falsy_token tok then (Ok RetFalse, st1)
      else redistribute remote genius set_order st1
  | (Raise e, st1) => (Raise e, st1)
  end.
Proof.
  unfold process, process_body, bind, logging. cbn [fst snd].
  destruct (authorize _ _ _ _ _ _) as [[tok|e] st1]; [|reflexivity].
  destruct (falsy_token tok); reflexivity.
Qed.

(** C9.  When the token exchange fails (the request raises, its answer
    is not JSON, or it carries no [access_token]), [process] returns
    [False] at once: the token request is the only request of the run,
    no listing and no playlist mutation is issued. *)
Theorem process_aborts_without_token code (w : World) e :
  access_token_of (snd (remote w (token_request CLIENT_ID SECRET_KEY URI code)))
    = Raise e ->
  fst (process remote genius set_order CLIENT_ID SECRET_KEY URI code w) = Ok RetFalse /\
  map fst (trace (snd (process remote genius set_order CLIENT_ID SECRET_KEY URI code w)))
    = [token_request CLIENT_ID SECRET_KEY URI code].
Proof.
  intros H. rewrite process_run.
  rewrite (@authorize_failure code (add_log (LogInfo "Process started") (init w)) e H).
  cbn. split; reflexivity.
Qed.

(** *** [get_songs_and_lan] *)

Lemma submit_lookups_nth tracks : forall a i tf,
  nth_error (submit_lookups genius a tracks) i = Some tf ->
  snd tf = genius (a + i)%nat (song_name (fst tf)) (song_artist (fst tf)).
Proof.
  induction tracks as [|t rest IH]; intros a i tf H.
  - destruct i; discriminate.
  - destruct i as [|i]; simpl in H.
    + injection H as <-. cbn [fst snd]. rewrite Nat.add_0_r. reflexivity.
    + apply IH in H. rewrite H. f_equal. lia.
Qed.

Lemma get_songs_and_lan_ok (st : State World) tracks :
  fst (get_songs_and_lan remote genius st) = Ok tracks ->
  exists songs,
    fst (get_songs remote st) = Ok songs /\
    collect_lans (submit_lookups genius 0 songs) = Ok tracks.
Proof.
  unfold get_songs_and_lan, bind.
  destruct (get_songs remote st) as [[songs|e] st1]; [|discriminate].
  unfold record_lookups, lift. cbn [fst]. intros H.
  exists songs. split; [reflexivity|exact H].
Qed.

Lemma submit_lookups_in tracks : forall a i s,
  nth_error tracks i = Some s ->
  In (s, genius (a + i)%nat (song_name s) (song_artist s))
     (submit_lookups genius a tracks).
Proof.
  induction tracks as [|t rest IH]; intros a i s H.
  - destruct i; discriminate.
  - destruct i as [|i]; simpl in H.
    + injection H as ->. left. rewrite Nat.add_0_r. reflexivity.
    + right. replace (a + S i)%nat with (S a + i)%nat by lia. apply IH. exact H.
Qed.

Lemma resolve_lan_cases status j l :
  resolve_lan (Response status (Some j)) = Ok l ->
  (exists v, language_path j = Ok v /\ v <> JNull /\ l = v) \/
  ((language_path j = Ok JNull \/
    language_path j = Raise KeyError \/
    language_path j = Raise IndexError) /\ l = unidentified).
Proof.
  unfold resolve_lan. cbn [lookup_json res_bind].
  destruct (language_path j) as [v|e].
  - destruct v; intros H; injection H as <-;
      try (left; eexists; split; [reflexivity|split; [discriminate|reflexivity]]).
    right. split; [left; reflexivity|reflexivity].
  - destruct e; intros H; try discriminate H; injection H as <-;
      right; (split; [|reflexivity]); [right; left|right; right]; reflexivity.
Qed.

Lemma resolve_lan_propagates out e :
  res_bind (lookup_json out) language_path = Raise e ->
  e <> KeyError -> e <> IndexError ->
  resolve_lan out = Raise e.
Proof.
  intros H Hk Hi. unfold resolve_lan. rewrite H.
  destruct e; try reflexivity; congruence.
Qed.

(** C3, as amended.  When [get_songs_and_lan] returns, the lookup
    submitted at the position of each returned track had answered with
    JSON, and the label of the track is read off that answer: it is the
    value the first hit gives as language when that value is not null
    (whatever it is, the empty string included), and it is exactly
    ["unidentified"] when that value is null or when a KeyError or an
    IndexError is met on the way to it, as with an empty [hits]; so the
    label is never null.  Nothing else is caught: a lookup that failed,
    answered with a body that is not JSON, or answered with JSON of the
    wrong shape (any exception but KeyError and IndexError on the way to
    the language) makes [get_songs_and_lan] raise. *)
Theorem get_songs_and_lan_labels (st : State World) :
  (forall tracks,
     fst (get_songs_and_lan remote genius st) = Ok tracks ->
     forall i t, nth_error tracks i = Some t ->
       let out := genius i (song_name t) (song_artist t) in
       resolve_lan out = Ok (song_lan t) /\
       song_lan t <> JNull /\
       (exists status j,
          out = Response status (Some j) /\
          ((exists v, language_path j = Ok v /\ v <> JNull /\ song_lan t = v) \/
           ((language_path j = Ok JNull \/
             language_path j = Raise KeyError \/
             language_path j = Raise IndexError) /\
            song_lan t = unidentified)) /\
          (forall r, subscript j "response" = Ok r ->
                     subscript r "hits" = Ok (JArr []) ->
                     song_lan t = unidentified))) /\
  (forall songs i s e,
     fst (get_songs remote st) = Ok songs ->
     nth_error songs i = Some s ->
     res_bind (lookup_json (genius i (song_name s) (song_artist s))) language_path
       = Raise e ->
     e <> KeyError -> e <> IndexError ->
     exists e', fst (get_songs_and_lan remote genius st) = Raise e').
Proof.
  split.
  - intros tracks Hok i t Ht out.
    destruct (get_songs_and_lan_ok st tracks Hok) as (songs & _ & Hc).
    unfold collect_lans in Hc.
    destruct (res_map_nth _ _ tracks Hc i t Ht) as (tf & Hn & Hf).
    apply submit_lookups_nth in Hn. cbn [Nat.add] in Hn.
    destruct (resolve_lan (snd tf)) as [l|e] eqn:Hl; [|discriminate].
    cbn [res_bind] in Hf. injection Hf as <-.
    cbn [set_lan song_name song_artist song_lan] in *.
    assert (Hout : out = snd tf) by (subst out; rewrite Hn; reflexivity).
    rewrite Hout.
    split; [exact Hl|]. split; [exact (resolve_lan_not_null _ _ Hl)|].
    destruct (snd tf) as [|status [j|]]; try discriminate Hl.
    exists status, j. split; [reflexivity|].
    pose proof (resolve_lan_cases status j l Hl) as Hcases.
    split; [exact Hcases|].
    intros r Hr Hh.
    pose proof (language_path_no_hits j r Hr Hh) as Hnh.
    destruct Hcases as [(v & Hv & _)|[_ Hu]]; [congruence|exact Hu].
  - intros songs i s e Hs Hn He Hk Hi.
    unfold get_songs_and_lan, bind.
    destruct (get_songs remote st) as [r st1]. cbn [fst] in Hs. subst r.
    unfold record_lookups, lift. cbn [fst]. unfold collect_lans.
    apply (res_map_raises _ (submit_lookups genius 0 songs)
             (s, genius i (song_name s) (song_artist s)) e).
    + exact (submit_lookups_in songs 0%nat i s Hn).
    + cbn [fst snd]. rewrite (resolve_lan_propagates _ e He Hk Hi). reflexivity.
Qed.

(** *** Grouping in [process] *)

Lemma group_songs_keys songs :
  forallb hashable (map song_lan songs) = true ->
  let keys := set_order (dedup (map song_lan songs)) in
  NoDup (map key_of keys) /\
  forallb hashable keys = true /\
  Forall (fun s => In (key_of (song_lan s)) (map key_of keys)) songs.
Proof.
  intros Hh keys.
  assert (Hperm : Permutation keys (dedup (map song_lan songs)))
    by apply set_order_perm.
  split; [|split].
  - apply (Permutation_NoDup (l := map key_of (dedup (map song_lan songs)))).
    + apply Permutation_map, Permutation_sym, Hperm.
    + apply dedup_NoDup, Hh.
  - apply forallb_forall. intros k Hk.
    apply (Permutation_in _ Hperm) in Hk. apply dedup_incl in Hk.
    rewrite forallb_forall in Hh. apply Hh, Hk.
  - apply Forall_forall. intros s Hs.
    apply (Permutation_in (l := map key_of (dedup (map song_lan songs)))).
    + apply Permutation_map, Permutation_sym, Hperm.
    + apply dedup_cover; [exact Hh|]. apply in_map, Hs.
Qed.

Lemma group_songs_closed_form songs :
  forallb hashable (map song_lan songs) = true ->
  group_songs set_order songs
  = Ok (map (fun k => (k, group_of songs k))
            (set_order (dedup (map song_lan songs)))).
Proof.
  intros Hh. unfold group_songs. cbv zeta. rewrite Hh.
  destruct (group_songs_keys songs Hh) as (Hnd & Hk & Hc).
  set (keys := set_order (dedup (map song_lan songs))) in *.
  assert (Hfst : map fst (map (fun lan => (lan, @nil json)) keys) = keys).
  { rewrite map_map. apply map_id. }
  rewrite append_all_spec; rewrite ?Hfst; try assumption.
  f_equal. rewrite map_map. reflexivity.
Qed.

Lemma group_songs_hashable songs d :
  group_songs set_order songs = Ok d ->
  forallb hashable (map song_lan songs) = true.
Proof.
  unfold group_songs. cbv zeta.
  destruct (forallb hashable (map song_lan songs)); [reflexivity|discriminate].
Qed.

(** C8.  The labels being hashable, grouping returns a dict, and its
    lists put end to end hold the uris of the enriched tracks, each as
    many times as the tracks do: none lost, none duplicated. *)
Theorem grouping_keeps_every_uri songs :
  forallb hashable (map song_lan songs) = true ->
  exists d,
    group_songs set_order songs = Ok d /\
    Permutation (List.concat (map snd d)) (map song_uri songs).
Proof.
  intros Hh. eexists. split; [apply group_songs_closed_form, Hh|].
  rewrite map_map. cbn [snd].
  destruct (group_songs_keys songs Hh) as (Hnd & Hk & Hc).
  apply flatten_groups; assumption.
Qed.

Lemma update_playlist_submits pid U (st : State World) :
  exists evs,
    trace (snd (update_playlist remote pid U st)) = trace st ++ evs /\
    (exists k, List.concat (map submitted_uris evs) = firstn k U) /\
    (fst (update_playlist remote pid U st) = Ok tt ->
     List.concat (map submitted_uris evs) = U).
Proof.
  unfold update_playlist.
  destruct (update_loop_run pid U
              (py_range (py_ceil_div (Z.of_nat (List.length U)) 90)) st)
    as (evs & Ht & _ & _ & Hq & Hk).
  cbv zeta in Ht, Hq, Hk. exists evs. split; [exact Ht|].
  assert (Hs : map submitted_uris evs
               = map (fun i => py_slice U (i * 90)%nat (i * 90 + 90)%nat)
                     (firstn (List.length evs)
                        (py_range (py_ceil_div (Z.of_nat (List.length U)) 90)))).
  { transitivity (map (fun r => match req_data r with
                                | Some (JObj (("uris", JArr l) :: _)) => l
                                | _ => []
                                end) (map fst evs)).
    - rewrite map_map. reflexivity.
    - rewrite Hq, map_map. reflexivity. }
  split.
  - unfold py_range in Hs. rewrite firstn_seq_min in Hs.
    rewrite Hs, concat_slices. eexists. reflexivity.
  - intros Hok. rewrite Hs, (Hk Hok), firstn_all.
    apply (chunks_concat 90 U). lia.
Qed.

(** The list grouped under a label is the list of the uris of the
    fetched tracks that carry the label, in the order of the fetch, and
    it is the list [process] hands to [update_playlist] or to
    [create_playlist]; the append requests of both carry consecutive
    slices of it in order, so that what has been submitted is at any time
    a prefix of the list: the whole list once [update_playlist] has run
    to its end, nothing or the first 90 uris for [create_playlist]. *)
Lemma groups_keep_fetch_order songs d :
  group_songs set_order songs = Ok d ->
  (forall L uris, In (L, uris) d ->
     uris = map song_uri (filter (fun s => py_eqb L (song_lan s)) songs) /\
     dict_getitem d L = Ok uris) /\
  (forall names L uris (st : State World), In (L, uris) d ->
     reconcile remote names d L st =
     match dict_lookup names L with
     | Some pid => bind (empty_playlist remote pid)
                        (fun _ => update_playlist remote pid uris) st
     | None => bind (create_playlist remote L uris) (fun _ => ret tt) st
     end) /\
  (forall pid U (st : State World),
     exists evs,
       trace (snd (update_playlist remote pid U st)) = trace st ++ evs /\
       (exists k, List.concat (map submitted_uris evs) = firstn k U) /\
       (fst (update_playlist remote pid U st) = Ok tt ->
        List.concat (map submitted_uris evs) = U)) /\
  (forall name U (st : State World),
     exists evs,
       trace (snd (create_playlist remote name U st)) = trace st ++ evs /\
       (List.concat (map submitted_uris (filter targets_tracks evs)) = [] \/
        List.concat (map submitted_uris (filter targets_tracks evs)) = firstn 90 U)).
Proof.
  intros Hd.
  pose proof (group_songs_hashable songs d Hd) as Hh.
  rewrite (group_songs_closed_form songs Hh) in Hd. injection Hd as <-.
  destruct (group_songs_keys songs Hh) as (Hnd & Hk & _).
  set (keys := set_order (dedup (map song_lan songs))) in *.
  assert (Hfst : map fst (map (fun k => (k, group_of songs k)) keys) = keys).
  { rewrite map_map. apply map_id. }
  assert (Hget : forall L uris,
             In (L, uris) (map (fun k => (k, group_of songs k)) keys) ->
             uris = group_of songs L /\
             dict_getitem (map (fun k => (k, group_of songs k)) keys) L = Ok uris).
  { intros L uris Hin. split.
    - apply in_map_iff in Hin. destruct Hin as (k & Hkv & _).
      injection Hkv as <- <-. reflexivity.
    - unfold dict_getitem. rewrite (dict_lookup_in _ L uris); rewrite ?Hfst; auto. }
  split; [exact Hget|]. split; [|split].
  - intros names L uris st Hin. destruct (Hget L uris Hin) as [_ Hg].
    unfold reconcile. destruct (dict_lookup names L) as [pid|].
    + unfold bind, lift. rewrite Hg.
      destruct (empty_playlist remote pid st) as [[[]|e] st1]; reflexivity.
    + unfold bind at 1. unfold lift. rewrite Hg. reflexivity.
  - intros pid U st. apply update_playlist_submits.
  - intros name U st. apply create_playlist_appends.
Qed.

(** *** What leaves [process] *)

Lemma get_resource_loop_returns ep hd d pages items (st : State World) :
  exists l, fst (get_resource_loop remote ep hd d pages items st) = Ok l.
Proof.
  destruct (get_resource_loop_run ep hd d pages items st) as (evs & Hr & _).
  eexists. exact Hr.
Qed.

Lemma redistribute_no_total (st : State World) status j e :
  snd (remote (world st) (request_in st GET EpMeTracks NoHeaders None []))
    = Response status (Some j) ->
  res_bind (subscript j "total") as_number = Raise e ->
  fst (redistribute remote genius set_order st) = Raise e.
Proof.
  intros Hout Htot.
  unfold redistribute. unfold bind at 1. unfold logging at 1.
  unfold bind at 1. unfold get_songs_and_lan. unfold bind at 1.
  unfold get_songs. unfold bind at 1.
  rewrite get_resource_run. cbv zeta.
  change (request_in (add_log (LogInfo "Authorized correctly") st) GET EpMeTracks
                     NoHeaders None [])
    with (request_in st GET EpMeTracks NoHeaders None []).
  change (world (add_log (LogInfo "Authorized correctly") st)) with (world st).
  rewrite Hout.
  unfold reported_total. cbn [call_result res_bind]. rewrite Htot.
  reflexivity.
Qed.

(** C6, as amended.  Exceptions can leave [process].  A failure is
    turned into a value where it occurs in these places: a failed token
    exchange makes [process] return [False]; the loop of [get_resource]
    skips a failed page and never raises; a KeyError or an IndexError met
    on the way to the language of a lookup gives the fallback label; a
    creation call that gives no id makes [create_playlist] return [False],
    which [process] drops, going on to the next label.  Not every failure
    is: when the authorization went through and the answer to the first
    request on [me/tracks] is JSON without a usable [total], that
    exception leaves [process]. *)
Theorem process_failure_boundaries code (w : World) :
  (forall e,
      access_token_of (snd (remote w (token_request CLIENT_ID SECRET_KEY URI code)))
        = Raise e ->
      fst (process remote genius set_order CLIENT_ID SECRET_KEY URI code w)
        = Ok RetFalse) /\
  (forall ep hd d pages items (st : State World),
      exists l, fst (get_resource_loop remote ep hd d pages items st) = Ok l) /\
  (forall status j,
      language_path j = Raise KeyError \/ language_path j = Raise IndexError ->
      resolve_lan (Response status (Some j)) = Ok unidentified) /\
  (forall names d L uris (st : State World) uid pid,
      dict_lookup names L = None ->
      dict_getitem d L = Ok uris ->
      user_id st = Some uid ->
      res_bind (call_result (snd (remote (world st)
                  (request_in st POST (EpUserPlaylists uid) NoHeaders
                     (Some (JObj [("name", L); ("public", JBool false)])) []))))
               (fun r => dict_get_method r "id") = Ok pid ->
      truthy pid = false ->
      fst (create_playlist remote L uris st) = Ok false /\
      fst (reconcile remote names d L st) = Ok tt) /\
  (forall tok st1 status j e,
      authorize remote CLIENT_ID SECRET_KEY URI code
                (add_log (LogInfo "Process started") (init w))
        = (Ok (Some tok), st1) ->
      truthy tok = true ->
      snd (remote (world st1) (request_in st1 GET EpMeTracks NoHeaders None []))
        = Response status (Some j) ->
      res_bind (subscript j "total") as_number = Raise e ->
      fst (process remote genius set_order CLIENT_ID SECRET_KEY URI code w)
        = Raise e).
Proof.
  split; [|split; [|split; [|split]]].
  - intros e H. rewrite process_run.
    rewrite (authorize_failure code (add_log (LogInfo "Process started") (init w)) e H).
    reflexivity.
  - apply get_resource_loop_returns.
  - intros status j H. apply resolve_lan_fallback. tauto.
  - intros names d L uris st uid pid Hl Hg Hu Hid Hf.
    assert (Hcp : create_playlist remote L uris st
                  = (Ok false,
                     add_log (LogCreateFailed L)
                       (after_call remote st
                          (request_in st POST (EpUserPlaylists uid) NoHeaders
                             (Some (JObj [("name", L); ("public", JBool false)])) [])))).
    { rewrite create_playlist_run, Hu. cbv zeta. rewrite Hid, Hf. reflexivity. }
    split; [rewrite Hcp; reflexivity|].
    unfold reconcile. rewrite Hl. unfold bind, lift. rewrite Hg, Hcp. reflexivity.
  - intros tok st1 status j e Hauth Htok Hout Htot.
    rewrite process_run, Hauth. cbn [falsy_token]. rewrite Htok. cbn [negb].
    apply (redistribute_no_total st1 status j e Hout Htot).
Qed.

(** *** [authorize], step by step *)

Lemma authorize_run code (st : State World) :
  authorize remote CLIENT_ID SECRET_KEY URI code st =
  let req := token_request CLIENT_ID SECRET_KEY URI code in
  let wo := remote (world st) req in
  let st1 := record_call (req, snd wo) (fst wo) st in
  match access_token_of (snd wo) with
  | Raise e => (Ok None, add_log (LogTokenException e) st1)
  | Ok t =>
      match bearer_of t with
      | Raise e => (Raise e, set_token t st1)
      | Ok h =>
          let st2 := set_api_headers h (set_token t st1) in
          let req2 := mkRequest GET EpMe h None [] in
          match res_bind (call_result (snd (remote (world st2) req2)))
                         (fun r => subscript r "id") with
          | Ok uid => (Ok (Some t), set_user_id uid (after_call remote st2 req2))
          | Raise e => (Raise e, after_call remote st2 req2)
          end
      end
  end.
Proof.
  unfold authorize. unfold bind at 1. unfold try_except, token_exchange.
  unfold bind at 1.
  destruct (remote (world st) (token_request CLIENT_ID SECRET_KEY URI code))
    as [w out] eqn:Hrem.
  cbn [fst snd].
  destruct (access_token_of out) as [t|e]; [|reflexivity].
  unfold ret at 1. cbn [negb].
  unfold bind at 1. unfold lift at 1. cbn [token set_token].
  destruct (bearer_of t) as [h|e]; [|reflexivity].
  unfold bind at 1.
  unfold bind at 1. unfold get_user_id. unfold bind at 1.
  rewrite make_call_run. unfold request_in.
  cbn [api_headers set_api_headers]. rewrite sent_headers_same.
  destruct (call_result _) as [r|e]; [|reflexivity].
  unfold lift. cbn [res_bind].
  destruct (subscript r "id") as [uid|e]; reflexivity.
Qed.

(** X1.  When the token exchange gives a string and the request on [me]
    that follows gives an [id], [authorize] returns the token and leaves
    the handler with the token, the bearer headers made of it and the
    user id; it has sent two requests, the second one already under the
    bearer headers. *)
Theorem authorize_sets_up_handler code (st : State World) s uid :
  let req := token_request CLIENT_ID SECRET_KEY URI code in
  access_token_of (snd (remote (world st) req)) = Ok (JStr s) ->
  res_bind (call_result (snd (remote (fst (remote (world st) req))
                                     (mkRequest GET EpMe (Bearer s) None []))))
           (fun r => subscript r "id") = Ok uid ->
  let run := authorize remote CLIENT_ID SECRET_KEY URI code st in
  fst run = Ok (Some (JStr s)) /\
  token (snd run) = JStr s /\
  api_headers (snd run) = Bearer s /\
  user_id (snd run) = Some uid /\
  map fst (trace (snd run))
  = map fst (trace st) ++ [req; mkRequest GET EpMe (Bearer s) None []].
Proof.
  intros req Htok Hid run. subst run. rewrite authorize_run. cbv zeta.
  fold req. rewrite Htok. cbn [bearer_of set_api_headers set_token record_call world].
  rewrite Hid. cbn [fst snd set_user_id after_call token api_headers user_id trace].
  split; [reflexivity|]. split; [reflexivity|]. split; [reflexivity|].
  split; [reflexivity|].
  cbn [set_api_headers set_token record_call trace].
  rewrite !map_app. cbn [map fst]. rewrite <- app_assoc. reflexivity.
Qed.

(** X2.  An [access_token] that is not a string passes the [try] and
    breaks the concatenation that follows it: [authorize] raises TypeError
    instead of returning [None], with the token request as its only
    request and the value kept as token. *)
Theorem authorize_rejects_non_string_token code (st : State World) t :
  let req := token_request CLIENT_ID SECRET_KEY URI code in
  access_token_of (snd (remote (world st) req)) = Ok t ->
  (forall s, t <> JStr s) ->
  let run := authorize remote CLIENT_ID SECRET_KEY URI code st in
  fst run = Raise TypeError /\
  token (snd run) = t /\
  map fst (trace (snd run)) = map fst (trace st) ++ [req].
Proof.
  intros req Htok Hns run. subst run. rewrite authorize_run. cbv zeta.
  fold req. rewrite Htok.
  destruct t as [| b | n | s | l | kvs];
    try (cbn [bearer_of fst snd set_token token trace record_call];
         rewrite map_app; repeat split; reflexivity).
  exfalso. exact (Hns s eq_refl).
Qed.

(** X3.  When the token is obtained and the request on [me] fails to give
    an [id], the exception is not caught: it leaves [authorize], and
    [process] with it, the handler already carrying the bearer headers. *)
Theorem authorize_propagates_user_id_failure code (w : World) s e :
  let req := token_request CLIENT_ID SECRET_KEY URI code in
  access_token_of (snd (remote w req)) = Ok (JStr s) ->
  res_bind (call_result (snd (remote (fst (remote w req))
                                     (mkRequest GET EpMe (Bearer s) None []))))
           (fun r => subscript r "id") = Raise e ->
  let st := add_log (LogInfo "Process started") (init w) in
  fst (authorize remote CLIENT_ID SECRET_KEY URI code st) = Raise e /\
  api_headers (snd (authorize remote CLIENT_ID SECRET_KEY URI code st)) = Bearer s /\
  fst (process remote genius set_order CLIENT_ID SECRET_KEY URI code w) = Raise e.
Proof.
  intros req Htok Hid st.
  assert (Hrun : authorize remote CLIENT_ID SECRET_KEY URI code st
                 = (Raise e,
                    after_call remote
                      (set_api_headers (Bearer s)
                         (set_token (JStr s)
                            (record_call (req, snd (remote w req)) (fst (remote w req)) st)))
                      (mkRequest GET EpMe (Bearer s) None []))).
  { rewrite authorize_run. cbv zeta. fold req.
    change (world st) with w. rewrite Htok.
    cbn [bearer_of set_api_headers set_token record_call world].
    rewrite Hid. reflexivity. }
  rewrite process_run. fold st. rewrite Hrun.
  repeat split.
Qed.

Lemma redistribute_returns_none (st : State World) r :
  fst (redistribute remote genius set_order st) = Ok r -> r = RetNone.
Proof.
  unfold redistribute, bind, logging, lift, ret.
  repeat match goal with
         | |- context [match ?x with _ => _ end] => destruct x
         end;
    cbn [fst]; intros H; try discriminate H; injection H as <-; reflexivity.
Qed.

(** X4.  [process] returns [False] in two cases only, both before any
    listing: the token exchange failed and the token request is the only
    request of the run, or the exchange gave the empty string and the run
    stopped after the request on [me]. *)
Theorem process_false_only_before_listing code (w : World) :
  let req := token_request CLIENT_ID SECRET_KEY URI code in
  let run := process remote genius set_order CLIENT_ID SECRET_KEY URI code w in
  fst run = Ok RetFalse ->
  ((exists e, access_token_of (snd (remote w req)) = Raise e) /\
   map fst (trace (snd run)) = [req]) \/
  (access_token_of (snd (remote w req)) = Ok (JStr "") /\
   map fst (trace (snd run)) = [req; mkRequest GET EpMe (Bearer "") None []]).
Proof.
  intros req run. subst run. rewrite process_run, authorize_run. cbv zeta.
  fold req. change (world (add_log (LogInfo "Process started") (init w))) with w.
  destruct (access_token_of (snd (remote w req))) as [t|e].
  - destruct (bearer_of t) as [h|e] eqn:Hb; [|discriminate].
    destruct (res_bind _ _) as [uid|e]; [|discriminate].
    cbn [falsy_token].
    destruct (truthy t) eqn:Ht; cbn [negb].
    + intros H. apply redistribute_returns_none in H. discriminate H.
    + intros _. right.
      destruct t as [| b | n | s | l | kvs]; try discriminate Hb.
      injection Hb as <-.
      cbn [truthy] in Ht. apply negb_false_iff in Ht.
      apply String.eqb_eq in Ht. subst s.
      split; reflexivity.
  - intros _. left. split; [exists e; reflexivity|reflexivity].
Qed.

(** *** More on [get_resource] *)

Lemma events_of_requests {A} (P : Request -> Prop) (f : A -> Request)
      (l : list A) (evs : list Event) :
  map fst evs = map f l ->
  (forall a, P (f a)) ->
  Forall (fun ev => P (fst ev)) evs.
Proof.
  intros Hq HP. apply Forall_forall. intros ev Hin.
  apply (in_map fst) in Hin. rewrite Hq in Hin.
  apply in_map_iff in Hin. destruct Hin as (a & <- & _). apply HP.
Qed.

(** X5.  Whatever the remote answers, [get_resource] only reads: every
    request it sends is a GET on its endpoint, under the headers and with
    the body it was given; it sends at least one, and it leaves the
    headers and the user id of the handler as they were. *)
Theorem get_resource_only_reads ep hd d params (st : State World) :
  let run := get_resource remote ep hd d params st in
  exists evs,
    trace (snd run) = trace st ++ evs /\
    evs <> [] /\
    Forall (fun ev => req_method (fst ev) = GET /\
                      req_endpoint (fst ev) = ep /\
                      req_headers (fst ev) = sent_headers hd (api_headers st) /\
                      req_data (fst ev) = d) evs /\
    api_headers (snd run) = api_headers st /\
    user_id (snd run) = user_id st.
Proof.
  intros run. subst run. rewrite get_resource_run. cbv zeta.
  set (req := request_in st GET ep hd d params).
  destruct (reported_total (snd (remote (world st) req))) as [n|e].
  - destruct (get_resource_loop_run ep hd d (py_range (page_count n)) []
                (after_call remote st req))
      as (evs & _ & Ht & Hq & _ & Hh & Hu).
    exists ((req, snd (remote (world st) req)) :: evs).
    rewrite Ht, Hh, Hu. cbn [after_call trace api_headers user_id].
    rewrite <- app_assoc.
    split; [reflexivity|]. split; [discriminate|].
    split; [|split; reflexivity].
    constructor; [repeat split|].
    apply (events_of_requests
             (fun r => req_method r = GET /\ req_endpoint r = ep /\
                       req_headers r = sent_headers hd (api_headers st) /\
                       req_data r = d)
             (fun page => request_in (after_call remote st req) GET ep hd d
                                     (page_params page))
             (py_range (page_count n)) evs Hq).
    intros page. repeat split.
  - exists [(req, snd (remote (world st) req))].
    cbn [snd after_call trace api_headers user_id].
    split; [reflexivity|]. split; [discriminate|].
    split; [|split; reflexivity].
    constructor; [repeat split|constructor].
Qed.

(** X6.  When the answer to the first request gives no usable [total]
    (the call raised, the body is not JSON, the key is missing, the value
    is not a number) [get_resource] raises that exception and has
    requested no page. *)
Theorem get_resource_needs_total ep hd d params (st : State World) e :
  let req := request_in st GET ep hd d params in
  reported_total (snd (remote (world st) req)) = Raise e ->
  fst (get_resource remote ep hd d params st) = Raise e /\
  trace (snd (get_resource remote ep hd d params st))
  = trace st ++ [(req, snd (remote (world st) req))].
Proof.
  intros req Htot. rewrite get_resource_run. cbv zeta. fold req. rewrite Htot.
  split; reflexivity.
Qed.

(** X8.  For a total N of at least 50 whose rest by 50 is between 1 and
    24, [get_resource] requests N/50 pages only: every window requested
    ends at 50 * (N/50) at most, short of N, so that the last entries of
    the collection are never asked for. *)
Theorem get_resource_drops_tail ep hd d params (st : State World) N :
  reported_total (snd (remote (world st) (request_in st GET ep hd d params))) = Ok N ->
  50 <= N ->
  0 < N mod 50 < 25 ->
  exists evs,
    trace (snd (get_resource remote ep hd d params st))
      = trace (after_call remote st (request_in st GET ep hd d params)) ++ evs /\
    List.length evs = Z.to_nat (N / 50) /\
    (forall i ev, nth_error evs i = Some ev ->
       req_params (fst ev) = [("offset", Z.of_nat i * 50); ("limit", 50)] /\
       Z.of_nat i * 50 + 50 <= 50 * (N / 50)) /\
    50 * (N / 50) < N.
Proof.
  intros Htot HN Hr. rewrite get_resource_run. cbv zeta. rewrite Htot.
  rewrite (page_count_short N HN Hr).
  destruct (get_resource_loop_run ep hd d (py_range (N / 50)) []
              (after_call remote st (request_in st GET ep hd d params)))
    as (evs & _ & Ht & Hq & _).
  assert (Hlen : List.length evs = Z.to_nat (N / 50)).
  { rewrite <- (length_map fst evs). rewrite Hq, length_map.
    unfold py_range. apply length_seq. }
  exists evs. rewrite Ht.
  split; [reflexivity|]. split; [exact Hlen|]. split.
  - intros i ev Hev.
    assert (Hi : (i < List.length evs)%nat)
      by (apply nth_error_Some; rewrite Hev; discriminate).
    apply (map_nth_error fst) in Hev. rewrite Hq in Hev.
    apply nth_error_map_seq in Hev. rewrite Hev. cbn [req_params request_in].
    split; [reflexivity|]. rewrite Hlen in Hi. lia.
  - pose proof (Z.div_mod N 50 ltac:(lia)). lia.
Qed.

(** *** [get_songs] and what [get_songs_and_lan] keeps of it *)

Lemma get_songs_run (st : State World) :
  get_songs remote st =
  (res_bind (fst (get_resource remote EpMeTracks NoHeaders None [] st))
            (res_map song_of_item),
   snd (get_resource remote EpMeTracks NoHeaders None [] st)).
Proof.
  unfold get_songs, bind, lift.
  destruct (get_resource remote EpMeTracks NoHeaders None [] st) as [[items|e] st1];
    reflexivity.
Qed.

(** X9.  [get_songs] returns one song per listed entry, in the order of
    the listing: the song at a position is built from the entry at that
    position, carries its uri, and has no language yet. *)
Theorem get_songs_follows_listing (st : State World) songs :
  fst (get_songs remote st) = Ok songs ->
  exists items,
    fst (get_resource remote EpMeTracks NoHeaders None [] st) = Ok items /\
    List.length songs = List.length items /\
    forall i s, nth_error songs i = Some s ->
      exists item,
        nth_error items i = Some item /\
        song_of_item item = Ok s /\
        track_uri item = Ok (song_uri s) /\
        song_lan s = JNull.
Proof.
  rewrite get_songs_run. cbn [fst].
  destruct (fst (get_resource remote EpMeTracks NoHeaders None [] st))
    as [items|e]; [|discriminate].
  cbn [res_bind]. intros Hm. exists items.
  split; [reflexivity|]. split; [exact (res_map_length song_of_item items songs Hm)|].
  intros i s Hs.
  destruct (res_map_nth song_of_item items songs Hm i s Hs) as (item & Hi & Hf).
  exists item. destruct (song_of_item_fields item s Hf) as [Hl Hu].
  repeat split; assumption.
Qed.

(** X10.  [get_songs] is all or nothing: one listed entry from which no
    song can be built (no [track], no [name], no artist, no [uri]) makes
    the whole call raise, whatever the other entries are. *)
Theorem get_songs_all_or_nothing (st : State World) items item e :
  fst (get_resource remote EpMeTracks NoHeaders None [] st) = Ok items ->
  In item items ->
  song_of_item item = Raise e ->
  exists e', fst (get_songs remote st) = Raise e'.
Proof.
  intros Hr Hin He. rewrite get_songs_run. cbn [fst]. rewrite Hr. cbn [res_bind].
  exact (res_map_raises song_of_item items item e Hin He).
Qed.

Lemma collect_lans_keeps_fields songs : forall i tracks,
  collect_lans (submit_lookups genius i songs) = Ok tracks ->
  map song_name tracks = map song_name songs /\
  map song_artist tracks = map song_artist songs /\
  map song_uri tracks = map song_uri songs.
Proof.
  induction songs as [|s songs IH]; intros i tracks H.
  - injection H as <-. repeat split.
  - unfold collect_lans in H. cbn [submit_lookups res_map fst snd] in H.
    destruct (resolve_lan (genius i (song_name s) (song_artist s))) as [l|e];
      [|discriminate].
    cbn [res_bind] in H.
    destruct (res_map _ (submit_lookups genius (S i) songs)) as [ts|e] eqn:Hrest;
      [|discriminate].
    injection H as <-.
    destruct (IH (S i) ts Hrest) as (Hn & Ha & Hu).
    cbn [map set_lan song_name song_artist song_uri].
    rewrite Hn, Ha, Hu. repeat split.
Qed.

Lemma submitted_requests songs : forall i,
  map fst (map (fun tf => (genius_request (fst tf), snd tf))
               (submit_lookups genius i songs))
  = map genius_request songs.
Proof.
  induction songs as [|s songs IH]; intros i; [reflexivity|].
  cbn [submit_lookups map fst snd]. rewrite IH. reflexivity.
Qed.

(** X11.  [get_songs_and_lan] returns the tracks of [get_songs], as many
    and in the same order, with the same name, artist and uri: the
    language is all it sets. *)
Theorem get_songs_and_lan_keeps_tracks (st : State World) tracks :
  fst (get_songs_and_lan remote genius st) = Ok tracks ->
  exists songs,
    fst (get_songs remote st) = Ok songs /\
    map song_name tracks = map song_name songs /\
    map song_artist tracks = map song_artist songs /\
    map song_uri tracks = map song_uri songs.
Proof.
  intros Hok.
  destruct (get_songs_and_lan_ok st tracks Hok) as (songs & Hs & Hc).
  exists songs. split; [exact Hs|].
  exact (collect_lans_keeps_fields songs 0%nat tracks Hc).
Qed.

(** X12.  Once [get_songs] has returned, one lookup is submitted per
    song, in the order of the songs, before any result is read: the
    lookups are in the trace even when reading one of them raises. *)
Theorem get_songs_and_lan_submits_every_lookup (st : State World) songs :
  fst (get_songs remote st) = Ok songs ->
  map fst (trace (snd (get_songs_and_lan remote genius st)))
  = map fst (trace (snd (get_songs remote st))) ++ map genius_request songs.
Proof.
  intros Hs. unfold get_songs_and_lan, bind.
  destruct (get_songs remote st) as [r st1]. cbn [fst snd] in *. subst r.
  unfold record_lookups, lift. cbn [fst snd trace].
  rewrite map_app, submitted_requests. reflexivity.
Qed.

(** *** More on [empty_playlist] *)

Lemma empty_loop_events pid idx : forall (st : State World),
  let run := for_each idx (fun _ : nat => empty_round remote pid) st in
  exists evs,
    trace (snd run) = trace st ++ evs /\
    removals_follow_pages pid (api_headers st) evs /\
    (List.length (filter is_delete evs) <= List.length idx)%nat /\
    Forall (fun ev => req_method (fst ev) <> POST) evs.
Proof.
  induction idx as [|i rest IH]; intros st run; subst run.
  - exists []. simpl. rewrite app_nil_r. repeat split; auto.
  - rewrite for_each_cons, empty_round_run. cbv zeta.
    set (req1 := request_in st GET (EpPlaylistTracks pid) NoHeaders None [("limit", 50)]).
    set (out1 := snd (remote (world st) req1)).
    set (st1 := after_call remote st req1).
    destruct (page_uris out1) as [uris|e] eqn:Hu.
    + set (req2 := request_in st1 DELETE (EpPlaylistTracks pid) NoHeaders
                              (Some (removal_body uris)) []).
      set (out2 := snd (remote (world st1) req2)).
      assert (Hpair : exists uris0,
                 page_uris out1 = Ok uris0 /\
                 req2 = mkRequest DELETE (EpPlaylistTracks pid) (api_headers st)
                                  (Some (removal_body uris0)) []).
      { exists uris. split; [exact Hu|reflexivity]. }
      destruct (call_result out2) as [r|e]; cbn [res_bind].
      * destruct (IH (after_call remote st1 req2)) as (evs & Ht & Hp & Hn & Hf).
        exists ((req1, out1) :: (req2, out2) :: evs).
        rewrite Ht. unfold st1 at 1. cbn [after_call trace]. rewrite <- !app_assoc.
        split; [reflexivity|]. split; [|split].
        -- cbn [removals_follow_pages]. split; [reflexivity|]. split; [exact Hpair|exact Hp].
        -- cbn [filter is_delete fst req_method req1 req2 request_in List.length].
           apply le_n_S. exact Hn.
        -- constructor; [discriminate|]. constructor; [discriminate|exact Hf].
      * exists [(req1, out1); (req2, out2)].
        unfold st1 at 1. cbn [snd fst after_call trace]. rewrite <- !app_assoc.
        split; [reflexivity|]. split; [|split].
        -- cbn [removals_follow_pages]. split; [reflexivity|]. split; [exact Hpair|exact I].
        -- cbn [filter is_delete fst req_method req1 req2 request_in List.length]. lia.
        -- constructor; [discriminate|]. constructor; [discriminate|constructor].
    + exists [(req1, out1)]. cbn [snd fst].
      split; [reflexivity|]. split; [|split].
      * cbn [removals_follow_pages]. split; [reflexivity|exact I].
      * cbn [filter is_delete fst req_method req1 request_in List.length]. lia.
      * constructor; [discriminate|constructor].
Qed.

(** X13.  However the run ends, [empty_playlist] removes only what it
    has just read: after the request for the total, a removal request
    only ever comes right after a request for a page and carries the uris
    of that page, and there are at most ceil(N/50) removal requests for a
    reported total of N. *)
Theorem empty_playlist_removes_what_it_read pid (st : State World) N :
  let req := request_in st GET (EpPlaylistTracks pid) NoHeaders None [] in
  reported_total (snd (remote (world st) req)) = Ok N ->
  exists evs,
    trace (snd (empty_playlist remote pid st))
      = trace st ++ (req, snd (remote (world st) req)) :: evs /\
    removals_follow_pages pid (api_headers st) evs /\
    (List.length (filter is_delete evs) <= Z.to_nat (py_ceil_div N 50))%nat.
Proof.
  intros req Htot. rewrite empty_playlist_run. cbv zeta. fold req. rewrite Htot.
  destruct (empty_loop_events pid (py_range (py_ceil_div N 50)) (after_call remote st req))
    as (evs & Ht & Hp & Hn & _).
  exists evs. rewrite Ht. cbn [after_call trace]. rewrite <- app_assoc.
  split; [reflexivity|]. split; [exact Hp|].
  unfold py_range in Hn. rewrite length_seq in Hn. exact Hn.
Qed.

(** X14.  A playlist reported with a total of zero (or less) is left
    alone: [empty_playlist] returns after the request for the total,
    without asking for a page or removing anything. *)
Theorem empty_playlist_nothing_to_remove pid (st : State World) N :
  let req := request_in st GET (EpPlaylistTracks pid) NoHeaders None [] in
  reported_total (snd (remote (world st) req)) = Ok N ->
  N <= 0 ->
  fst (empty_playlist remote pid st) = Ok tt /\
  trace (snd (empty_playlist remote pid st))
  = trace st ++ [(req, snd (remote (world st) req))].
Proof.
  intros req Htot HN. rewrite empty_playlist_run. cbv zeta. fold req. rewrite Htot.
  assert (Hr : py_range (py_ceil_div N 50) = []).
  { unfold py_range, py_ceil_div.
    assert ((N + 50 - 1) / 50 <= 0).
    { apply Z.lt_succ_r. apply Z.div_lt_upper_bound; lia. }
    replace (Z.to_nat ((N + 50 - 1) / 50)) with 0%nat by lia. reflexivity. }
  rewrite Hr. split; reflexivity.
Qed.

Lemma empty_playlist_never_posts pid (st : State World) :
  exists evs,
    trace (snd (empty_playlist remote pid st)) = trace st ++ evs /\
    Forall (fun ev => req_method (fst ev) <> POST) evs.
Proof.
  rewrite empty_playlist_run. cbv zeta.
  set (req := request_in st GET (EpPlaylistTracks pid) NoHeaders None []).
  destruct (reported_total (snd (remote (world st) req))) as [n|e].
  - destruct (empty_loop_events pid (py_range (py_ceil_div n 50)) (after_call remote st req))
      as (evs & Ht & _ & _ & Hf).
    exists ((req, snd (remote (world st) req)) :: evs).
    rewrite Ht. cbn [after_call trace]. rewrite <- app_assoc.
    split; [reflexivity|]. constructor; [discriminate|exact Hf].
  - exists [(req, snd (remote (world st) req))].
    split; [reflexivity|]. constructor; [discriminate|constructor].
Qed.

(** *** More on [update_playlist] and [create_playlist] *)

Lemma update_loop_failure pid songs n : forall a (st : State World) e,
  let run := for_each (seq a n)
               (fun i => bind (make_call remote POST (EpPlaylistTracks pid) NoHeaders
                                         (Some (append_body songs i)) [])
                              (fun _ => ret tt)) st in
  fst run = Raise e ->
  exists evs ev,
    trace (snd run) = trace st ++ evs ++ [ev] /\
    Forall (fun ev' => exists r, call_result (snd ev') = Ok r) evs /\
    call_result (snd ev) = Raise e /\
    (List.length evs < n)%nat /\
    fst ev = mkRequest POST (EpPlaylistTracks pid) (api_headers st)
                       (Some (append_body songs (a + List.length evs))) [].
Proof.
  induction n as [|n IH]; intros a st e run; subst run.
  - discriminate.
  - cbn [seq]. rewrite for_each_cons, call_then_unit_run.
    set (req := request_in st POST (EpPlaylistTracks pid) NoHeaders
                           (Some (append_body songs a)) []).
    destruct (call_result (snd (remote (world st) req))) as [r|e0] eqn:Hc;
      cbn [res_bind].
    + intros Hf.
      destruct (IH (S a) (after_call remote st req) e Hf)
        as (evs & ev & Ht & Hok & He & Hlen & Hreq).
      exists ((req, snd (remote (world st) req)) :: evs), ev.
      rewrite Ht. cbn [after_call trace]. rewrite <- !app_assoc.
      split; [reflexivity|]. split; [|split; [exact He|split]].
      * constructor; [exists r; exact Hc|exact Hok].
      * cbn [List.length]. lia.
      * rewrite Hreq. cbn [after_call api_headers List.length]. do 3 f_equal. lia.
    + cbn [fst]. intros Hf. assert (He0 : e0 = e) by congruence. subst e0.
      exists [], (req, snd (remote (world st) req)).
      cbn [snd after_call trace app List.length fst].
      split; [reflexivity|]. split; [constructor|]. split; [exact Hc|].
      split; [lia|]. rewrite Nat.add_0_r. reflexivity.
Qed.

(** X15.  An append that raises ends [update_playlist] there: the
    requests before it were all answered, it is the last request of the
    run, no slice after it is sent, and the exception is the one of that
    call. *)
Theorem update_playlist_stops_at_first_failure pid (U : list json) (st : State World) e :
  fst (update_playlist remote pid U st) = Raise e ->
  exists evs ev,
    trace (snd (update_playlist remote pid U st)) = trace st ++ evs ++ [ev] /\
    Forall (fun ev' => exists r, call_result (snd ev') = Ok r) evs /\
    call_result (snd ev) = Raise e /\
    (List.length evs < Z.to_nat (py_ceil_div (Z.of_nat (List.length U)) 90))%nat /\
    submitted_uris ev
    = py_slice U (List.length evs * 90)%nat (List.length evs * 90 + 90)%nat.
Proof.
  unfold update_playlist, py_range. intros Hf.
  destruct (update_loop_failure pid U
              (Z.to_nat (py_ceil_div (Z.of_nat (List.length U)) 90)) 0%nat st e Hf)
    as (evs & ev & Ht & Hok & He & Hlen & Hreq).
  exists evs, ev. split; [exact Ht|]. split; [exact Hok|]. split; [exact He|].
  split; [exact Hlen|].
  unfold submitted_uris. rewrite Hreq. reflexivity.
Qed.

(** X16.  [create_playlist] returns [True] in one case only: the handler
    knows its user, the creation call gave an id that counts as true, and
    there was no song to add. *)
Theorem create_playlist_true_iff name songs (st : State World) :
  fst (create_playlist remote name songs st) = Ok true <->
  songs = [] /\
  exists uid pid,
    user_id st = Some uid /\
    res_bind (call_result (snd (remote (world st)
                (request_in st POST (EpUserPlaylists uid) NoHeaders
                   (Some (JObj [("name", name); ("public", JBool false)])) []))))
             (fun r => dict_get_method r "id") = Ok pid /\
    truthy pid = true.
Proof.
  rewrite create_playlist_run. split.
  - destruct (user_id st) as [uid|]; [|discriminate]. cbv zeta.
    destruct (res_bind _ _) as [pid|e] eqn:Hid; [|discriminate].
    destruct (truthy pid) eqn:Ht; cbn [negb]; [|discriminate].
    destruct songs as [|s songs].
    + intros _. split; [reflexivity|]. exists uid, pid. repeat split; assumption.
    + cbn [List.length]. rewrite range_ceil_nonempty, create_loop_cons. cbv zeta.
      cbn [fst]. intros H.
      match type of H with
      | context [call_result ?x] => destruct (call_result x)
      end; discriminate H.
  - intros [-> (uid & pid & Hu & Hid & Ht)].
    rewrite Hu. cbv zeta. rewrite Hid, Ht. reflexivity.
Qed.

(** X17.  When the creation call gives no id that counts as true,
    [create_playlist] logs the failure and returns [False] having sent the
    creation request alone: no append is tried. *)
Theorem create_playlist_without_id name songs (st : State World) uid pid :
  let req := request_in st POST (EpUserPlaylists uid) NoHeaders
               (Some (JObj [("name", name); ("public", JBool false)])) [] in
  user_id st = Some uid ->
  res_bind (call_result (snd (remote (world st) req)))
           (fun r => dict_get_method r "id") = Ok pid ->
  truthy pid = false ->
  let run := create_playlist remote name songs st in
  fst run = Ok false /\
  trace (snd run) = trace st ++ [(req, snd (remote (world st) req))] /\
  log (snd run)
  = log st ++ call_log req (snd (remote (world st) req)) ++ [LogCreateFailed name].
Proof.
  intros req Hu Hid Hf run. subst run.
  rewrite create_playlist_run, Hu. cbv zeta. fold req.
  rewrite Hid, Hf. cbn [negb fst snd add_log after_call trace log].
  rewrite <- app_assoc. repeat split.
Qed.

(** X18.  On a handler that has not been through [authorize] there is no
    user id to build the path from: [get_playlists] and [create_playlist]
    raise AttributeError before sending anything. *)
Theorem user_id_is_needed name songs (st : State World) :
  user_id st = None ->
  get_playlists remote st = (Raise AttributeError, st) /\
  create_playlist remote name songs st = (Raise AttributeError, st).
Proof.
  intros Hu. split.
  - unfold get_playlists, bind, read_user_id. rewrite Hu. reflexivity.
  - rewrite create_playlist_run, Hu. reflexivity.
Qed.

(** *** More on the grouping and on the last loop of [process] *)

(** X19.  In the dict of the groups no label comes twice, no group is
    empty, and every track finds its uri in the group its own label leads
    to: [process] never creates or refills a playlist for nothing. *)
Theorem groups_are_distinct_and_inhabited songs d :
  group_songs set_order songs = Ok d ->
  NoDup (map key_of (map fst d)) /\
  Forall (fun kv => snd kv <> []) d /\
  (forall s, In s songs ->
     exists uris, dict_lookup d (song_lan s) = Some uris /\ In (song_uri s) uris).
Proof.
  intros Hd.
  pose proof (group_songs_hashable songs d Hd) as Hh.
  rewrite (group_songs_closed_form songs Hh) in Hd. injection Hd as <-.
  destruct (group_songs_keys songs Hh) as (Hnd & Hk & Hc).
  set (keys := set_order (dedup (map song_lan songs))) in *.
  assert (Hfst : map fst (map (fun k => (k, group_of songs k)) keys) = keys).
  { rewrite map_map. apply map_id. }
  rewrite Hfst. split; [exact Hnd|]. split.
  - apply Forall_forall. intros [k us] Hin. cbn [snd].
    apply in_map_iff in Hin. destruct Hin as (k' & Hkv & Hk').
    injection Hkv as -> <-.
    apply (Permutation_in _ (set_order_perm _)) in Hk'. apply dedup_incl in Hk'.
    apply in_map_iff in Hk'. destruct Hk' as (s & <- & Hs).
    assert (Hin : In (song_uri s) (group_of songs (song_lan s))).
    { unfold group_of. apply in_map. apply filter_In. split; [exact Hs|].
      apply py_eqb_true. split; [reflexivity|].
      rewrite forallb_forall in Hh. apply Hh. apply in_map. exact Hs. }
    intros Hnil. rewrite Hnil in Hin. contradiction.
  - intros s Hs.
    rewrite Forall_forall in Hc. specialize (Hc s Hs).
    apply in_map_iff in Hc. destruct Hc as (k & Hkey & Hin).
    assert (He : py_eqb k (song_lan s) = true).
    { apply py_eqb_true. split; [exact Hkey|].
      rewrite forallb_forall in Hk. apply Hk. exact Hin. }
    exists (group_of songs k). split.
    + apply (dict_lookup_same_key _ k (song_lan s)); rewrite ?Hfst; auto.
      apply in_map_iff. exists k. split; [reflexivity|exact Hin].
    + unfold group_of. apply in_map. apply filter_In. split; assumption.
Qed.

(** X20.  Grouping fails in one way only: it raises TypeError, and it
    does so exactly when the language of some track is a value no set can
    hold, an array or an object. *)
Theorem group_songs_raises_iff songs e :
  group_songs set_order songs = Raise e <->
  e = TypeError /\ exists s, In s songs /\ hashable (song_lan s) = false.
Proof.
  destruct (forallb hashable (map song_lan songs)) eqn:Hh.
  - rewrite (group_songs_closed_form songs Hh). split; [discriminate|].
    intros [_ (s & Hs & Hu)].
    rewrite forallb_forall in Hh. rewrite (Hh (song_lan s)) in Hu; [discriminate|].
    apply in_map. exact Hs.
  - unfold group_songs. cbv zeta. rewrite Hh. split.
    + intros H. injection H as <-. split; [reflexivity|].
      apply some_unhashable in Hh. destruct Hh as (x & Hin & Hx).
      apply in_map_iff in Hin. destruct Hin as (s & <- & Hs).
      exists s. split; assumption.
    + intros [-> _]. reflexivity.
Qed.

(** X22.  On the reuse path nothing is appended unless the emptying ran
    to its end: when [empty_playlist] raises, the exception leaves the
    turn of the loop and no POST has been sent. *)
Theorem reconcile_stops_when_emptying_fails names d L pid (st : State World) e :
  dict_lookup names L = Some pid ->
  fst (empty_playlist remote pid st) = Raise e ->
  fst (reconcile remote names d L st) = Raise e /\
  exists evs,
    trace (snd (reconcile remote names d L st)) = trace st ++ evs /\
    Forall (fun ev => req_method (fst ev) <> POST) evs.
Proof.
  intros Hl He. unfold reconcile. rewrite Hl. unfold bind.
  destruct (empty_playlist_never_posts pid st) as (evs & Ht & Hf).
  destruct (empty_playlist remote pid st) as [r st1]. cbn [fst snd] in *.
  subst r. cbn [fst snd]. split; [reflexivity|].
  exists evs. split; assumption.
Qed.

(** X23.  The result of [create_playlist] is not looked at: on the
    creation path, a creation call that gives no id ends the turn of the
    loop normally, with the creation request as its only request, and the
    loop goes on to the next label. *)
Theorem reconcile_goes_on_after_refused_creation names d L uris (st : State World)
        uid pid :
  let req := request_in st POST (EpUserPlaylists uid) NoHeaders
               (Some (JObj [("name", L); ("public", JBool false)])) [] in
  dict_lookup names L = None ->
  dict_getitem d L = Ok uris ->
  user_id st = Some uid ->
  res_bind (call_result (snd (remote (world st) req)))
           (fun r => dict_get_method r "id") = Ok pid ->
  truthy pid = false ->
  fst (reconcile remote names d L st) = Ok tt /\
  trace (snd (reconcile remote names d L st))
  = trace st ++ [(req, snd (remote (world st) req))].
Proof.
  intros req Hl Hg Hu Hid Hf. unfold reconcile. rewrite Hl.
  unfold bind at 1. unfold lift. rewrite Hg.
  unfold bind. rewrite create_playlist_run, Hu. cbv zeta. fold req.
  rewrite Hid, Hf. cbn [negb]. split; reflexivity.
Qed.

(** X24.  With no saved track there is nothing to group: [process], once
    authorized, lists the playlists, sends nothing after that listing and
    ends normally. *)
Theorem redistribute_empty_library (st st2 st4 : State World) ps names :
  get_songs_and_lan remote genius (add_log (LogInfo "Authorized correctly") st)
    = (Ok [], st2) ->
  get_playlists remote (add_log (LogInfo "Collecting users's songs and playlists") st2)
    = (Ok ps, st4) ->
  names_dict [] ps = Ok names ->
  fst (redistribute remote genius set_order st) = Ok RetNone /\
  trace (snd (redistribute remote genius set_order st)) = trace st4.
Proof.
  intros Hs Hp Hn.
  assert (Hg : group_songs set_order [] = Ok []).
  { unfold group_songs. cbn.
    rewrite (Permutation_nil (Permutation_sym (set_order_perm []))). reflexivity. }
  assert (Hrun : redistribute remote genius set_order st
                 = (Ok RetNone,
                    add_log (LogInfo "Process finished")
                      (add_log (LogInfo "Creating and populating playlists...") st4))).
  { unfold redistribute. unfold bind at 1. unfold logging at 1.
    unfold bind at 1. rewrite Hs.
    unfold bind at 1. unfold logging at 1.
    unfold bind at 1. unfold lift at 1. rewrite Hg.
    unfold bind at 1. rewrite Hp.
    unfold bind at 1. unfold lift at 1. rewrite Hn.
    reflexivity. }
  rewrite Hrun. split; reflexivity.
Qed.

(** X25.  [get_playlists] returns one playlist per entry of the listing
    of the user's playlists, in the order of the listing, each with the
    [name] and the [id] of its entry. *)
Theorem get_playlists_follows_listing (st : State World) uid ps :
  user_id st = Some uid ->
  fst (get_playlists remote st) = Ok ps ->
  exists items,
    fst (get_resource remote (EpUserPlaylists uid) NoHeaders None [] st) = Ok items /\
    List.length ps = List.length items /\
    forall i p, nth_error ps i = Some p ->
      exists item,
        nth_error items i = Some item /\
        subscript item "name" = Ok (playlist_name p) /\
        subscript item "id" = Ok (playlist_id p).
Proof.
  intros Hu. unfold get_playlists, bind, read_user_id, lift. rewrite Hu.
  destruct (get_resource remote (EpUserPlaylists uid) NoHeaders None [] st)
    as [[items|e] st1]; [|discriminate].
  cbn [fst]. intros Hm. exists items.
  split; [reflexivity|].
  split; [exact (res_map_length playlist_of_item items ps Hm)|].
  intros i p Hp.
  destruct (res_map_nth playlist_of_item items ps Hm i p Hp) as (item & Hi & Hf).
  exists item. split; [exact Hi|].
  unfold playlist_of_item in Hf.
  destruct (subscript item "name") as [n|e]; [|discriminate Hf].
  cbn [res_bind] in Hf.
  destruct (subscript item "id") as [id|e]; [|discriminate Hf].
  cbn [res_bind] in Hf. injection Hf as <-. split; reflexivity.
Qed.

End Properties.

(** ** The properties on concrete runs *)

(** Ties go to the even integer: 25 and 125 entries round down, 75 up. *)
Example page_count_samples :
  map page_count [0; 24; 25; 26; 75; 120; 125] = [1; 1; 1; 1; 2; 2; 2].
Proof. reflexivity. Qed.

Example get_resource_two_pages :
  fst (get_resource scripted EpMeTracks NoHeaders None [] (signed_in two_pages))
  = Ok [JStr "a"; JStr "b"].
Proof. reflexivity. Qed.

Lemma get_resource_page_requests_witness :
  exists evs : list Event,
    List.length evs = 2%nat /\
    fst (get_resource scripted EpMeTracks NoHeaders None [] (signed_in two_pages))
    = Ok (flat_map contributed evs).
Proof.
  destruct (get_resource_page_requests Script scripted EpMeTracks NoHeaders None []
              (signed_in two_pages) 120 eq_refl ltac:(lia))
    as (evs & _ & Hlen & _ & Hres & _).
  exists evs. split; [exact Hlen|exact Hres].
Defined.

Example get_resource_first_page_lost :
  fst (get_resource scripted EpMeTracks NoHeaders None [] (signed_in first_page_lost))
  = Ok [JStr "b"].
Proof. reflexivity. Qed.

Lemma get_resource_skips_failed_pages_witness :
  exists evs : list Event,
    map (fun ev => req_params (fst ev)) evs
    = [[("offset", 0); ("limit", 50)]; [("offset", 50); ("limit", 50)]] /\
    fst (get_resource scripted EpMeTracks NoHeaders None [] (signed_in first_page_lost))
    = Ok (flat_map contributed evs).
Proof.
  destruct (get_resource_skips_failed_pages Script scripted EpMeTracks NoHeaders None []
              (signed_in first_page_lost) 100 eq_refl)
    as (evs & _ & Hq & Hres & _).
  exists evs. split; [|exact Hres].
  rewrite <- (map_map fst req_params), Hq. reflexivity.
Defined.

Lemma update_playlist_chunks_witness :
  exists evs : list Event,
    List.length evs = 2%nat /\
    map (fun ev => List.length (submitted_uris ev)) evs = [90%nat; 1%nat].
Proof.
  destruct (update_playlist_chunks Script scripted (JStr "p") uris91
              (signed_in two_appends) eq_refl)
    as (evs & _ & Hq & Hlen & _).
  exists evs. split; [exact Hlen|].
  transitivity (map (fun r => List.length (submitted_uris (r, Failed))) (map fst evs)).
  - rewrite map_map. reflexivity.
  - rewrite Hq. reflexivity.
Defined.

(** C2.  The playlist is created and the first append is accepted with
    status 200; [create_playlist] has sent both requests and raises
    AttributeError instead of returning [True]. *)
Theorem create_playlist_raises_after_first_append :
  let run := create_playlist scripted (JStr "en") [JStr "spotify:track:1"]
                             (signed_in created_then_appended) in
  fst run = Raise AttributeError /\
  map fst (trace (snd run))
  = [ mkRequest POST (EpUserPlaylists (JStr "me")) (Bearer "t")
                (Some (JObj [("name", JStr "en"); ("public", JBool false)])) [];
      mkRequest POST (EpPlaylistTracks (JStr "p1")) (Bearer "t")
                (Some (JObj [("uris", JArr [JStr "spotify:track:1"]);
                             ("position", JNum 0)])) [] ].
Proof. split; reflexivity. Qed.

(** A lookup that raised leaves [get_songs_and_lan] as an exception, and
    a lookup that gives the empty string as language gives an empty
    label. *)
Lemma get_songs_and_lan_raises :
  fst (get_songs_and_lan scripted no_lookup (signed_in one_saved_track))
  = Raise ConnectionError /\
  fst (get_songs_and_lan scripted empty_language (signed_in one_saved_track))
  = Ok [mkSong (JStr "Song") (JStr "Artist") (JStr "") (JStr "spotify:track:1")].
Proof. split; reflexivity. Qed.

Lemma get_songs_and_lan_labels_witness :
  fst (get_songs_and_lan scripted no_hits (signed_in one_saved_track))
  = Ok [mkSong (JStr "Song") (JStr "Artist") unidentified (JStr "spotify:track:1")] /\
  resolve_lan (no_hits 0 (JStr "Song") (JStr "Artist")) = Ok unidentified /\
  unidentified <> JNull /\
  exists e, fst (get_songs_and_lan scripted no_lookup (signed_in one_saved_track))
            = Raise e.
Proof.
  split; [reflexivity|].
  destruct (get_songs_and_lan_labels Script scripted no_hits
              (signed_in one_saved_track)) as (Hret & _).
  destruct (Hret [mkSong (JStr "Song") (JStr "Artist") unidentified
                         (JStr "spotify:track:1")]
                 eq_refl 0%nat
                 (mkSong (JStr "Song") (JStr "Artist") unidentified
                         (JStr "spotify:track:1"))
                 eq_refl)
    as (Hres & Hnn & _).
  split; [exact Hres|]. split; [exact Hnn|].
  destruct (get_songs_and_lan_labels Script scripted no_lookup
              (signed_in one_saved_track)) as (_ & Hraise).
  apply (Hraise [mkSong (JStr "Song") (JStr "Artist") JNull (JStr "spotify:track:1")]
                0%nat
                (mkSong (JStr "Song") (JStr "Artist") JNull (JStr "spotify:track:1"))
                ConnectionError eq_refl eq_refl eq_refl);
    discriminate.
Defined.

(** Two turns, one request for the total: the second turn runs on the
    count read at entry, although the playlist is empty by then. *)
Lemma empty_playlist_reads_total_once :
  let st := snd (empty_playlist scripted (JStr "p") (signed_in shrinking_playlist)) in
  List.length (filter is_total_query (trace st)) = 1%nat /\
  map (fun ev => req_data (fst ev)) (filter is_delete (trace st))
  = [Some (removal_body [JStr "a"; JStr "a"]); Some (removal_body [])].
Proof. split; reflexivity. Qed.

Lemma empty_playlist_rounds_witness :
  exists (out : Outcome) (evs : list Event),
    reported_total out = Ok 100 /\
    removal_rounds (JStr "p") (Bearer "t") evs 2.
Proof.
  destruct (empty_playlist_rounds Script scripted (JStr "p")
              (signed_in shrinking_playlist) 100 eq_refl eq_refl)
    as (out & evs & _ & Htot & Hr & _).
  exists out, evs. split; [exact Htot|exact Hr].
Defined.

Lemma process_aborts_without_token_witness :
  fst (process scripted no_lookup same_order "id" "secret" (JStr "http://localhost/code")
               (JStr "c0de") token_refused) = Ok RetFalse /\
  map fst (trace (snd (process scripted no_lookup same_order "id" "secret"
                               (JStr "http://localhost/code") (JStr "c0de")
                               token_refused)))
  = [token_request "id" "secret" (JStr "http://localhost/code") (JStr "c0de")].
Proof.
  apply (process_aborts_without_token Script scripted no_lookup same_order
           "id" "secret" (JStr "http://localhost/code") (JStr "c0de")
           token_refused KeyError).
  reflexivity.
Defined.

(** The listing of the saved tracks is answered with an error document:
    the KeyError on [total] leaves [process]. *)
Lemma process_raises_on_refused_listing :
  fst (process scripted no_lookup same_order "id" "secret" (JStr "http://localhost/code")
               (JStr "c0de") listing_refused) = Raise KeyError.
Proof. reflexivity. Qed.

Lemma process_failure_boundaries_witness :
  fst (process scripted no_hits same_order "id" "secret" (JStr "http://localhost/code")
               (JStr "c0de") token_refused) = Ok RetFalse /\
  fst (process scripted no_hits same_order "id" "secret" (JStr "http://localhost/code")
               (JStr "c0de") listing_refused) = Raise KeyError /\
  fst (reconcile scripted [] [(JStr "en", [JStr "u1"])] (JStr "en")
                 (signed_in only_error)) = Ok tt.
Proof.
  split; [|split].
  - destruct (process_failure_boundaries Script scripted no_hits same_order
                "id" "secret" (JStr "http://localhost/code") (JStr "c0de")
                token_refused) as (H & _).
    apply (H KeyError). reflexivity.
  - destruct (process_failure_boundaries Script scripted no_hits same_order
                "id" "secret" (JStr "http://localhost/code") (JStr "c0de")
                listing_refused) as (_ & _ & _ & _ & H).
    eapply H; reflexivity.
  - destruct (process_failure_boundaries Script scripted no_hits same_order
                "id" "secret" (JStr "http://localhost/code") (JStr "c0de")
                listing_refused) as (_ & _ & _ & H & _).
    apply (H [] [(JStr "en", [JStr "u1"])] (JStr "en") [JStr "u1"]
             (signed_in only_error) (JStr "me") JNull);
      reflexivity.
Defined.

Lemma grouping_keeps_every_uri_witness :
  exists d,
    group_songs same_order three_songs = Ok d /\
    Permutation (List.concat (map snd d)) [JStr "u1"; JStr "u2"; JStr "u3"].
Proof.
  apply (grouping_keeps_every_uri same_order (fun l => Permutation_refl l) three_songs).
  reflexivity.
Defined.

Example groups_keep_fetch_order_sample :
  dict_getitem [(JStr "en", [JStr "u1"; JStr "u3"]); (JStr "pl", [JStr "u2"])] (JStr "en")
  = Ok [JStr "u1"; JStr "u3"].
Proof.
  destruct (groups_keep_fetch_order Script scripted same_order
              (fun l => Permutation_refl l) three_songs
              [(JStr "en", [JStr "u1"; JStr "u3"]); (JStr "pl", [JStr "u2"])]
              eq_refl) as (H & _).
  apply (H (JStr "en") [JStr "u1"; JStr "u3"]). left. reflexivity.
Qed.

(** C10.  91 tracks of one language and no playlist of that name: the
    group holds the 91 uris in fetch order, [create_playlist] submits the
    first 90 of them at position 0 and raises AttributeError, so that the
    last uri of the group is never submitted and the exception leaves
    [process]. *)
Theorem process_submits_first_chunk_only :
  let run := process scripted english same_order "id" "secret"
                     (JStr "http://localhost/code") (JStr "c0de") library91 in
  fst run = Raise AttributeError /\
  map (fun ev => req_endpoint (fst ev)) (filter is_post (trace (snd run)))
  = [EpToken; EpUserPlaylists (JStr "me"); EpPlaylistTracks (JStr "p1")] /\
  List.concat (map submitted_uris (filter targets_tracks (trace (snd run))))
  = firstn 90 uris91 /\
  firstn 90 uris91 <> uris91.
Proof.
  cbv zeta. split; [vm_compute; reflexivity|].
  split; [vm_compute; reflexivity|].
  split; [vm_compute; reflexivity|].
  intros H. apply (f_equal (@List.length json)) in H.
  vm_compute in H. discriminate H.
Qed.

(** ** More runs *)

Lemma authorize_sets_up_handler_witness :
  let run := authorize scripted "id" "secret" (JStr "http://localhost/code")
                       (JStr "c0de") (init listing_refused) in
  fst run = Ok (Some (JStr "t")) /\
  api_headers (snd run) = Bearer "t" /\
  user_id (snd run) = Some (JStr "me").
Proof.
  destruct (authorize_sets_up_handler Script scripted "id" "secret"
              (JStr "http://localhost/code") (JStr "c0de") (init listing_refused)
              "t" (JStr "me") eq_refl eq_refl)
    as (Hr & _ & Hh & Hu & _).
  cbv zeta. split; [exact Hr|]. split; [exact Hh|exact Hu].
Defined.

Lemma authorize_rejects_non_string_token_witness :
  fst (authorize scripted "id" "secret" (JStr "http://localhost/code")
                 (JStr "c0de") (init token_is_null)) = Raise TypeError.
Proof.
  destruct (authorize_rejects_non_string_token Script scripted "id" "secret"
              (JStr "http://localhost/code") (JStr "c0de") (init token_is_null)
              JNull eq_refl ltac:(discriminate))
    as (Hr & _).
  exact Hr.
Defined.

Lemma authorize_propagates_user_id_failure_witness :
  fst (process scripted no_lookup same_order "id" "secret"
               (JStr "http://localhost/code") (JStr "c0de") user_refused)
  = Raise KeyError.
Proof.
  destruct (authorize_propagates_user_id_failure Script scripted no_lookup same_order
              "id" "secret" (JStr "http://localhost/code") (JStr "c0de")
              user_refused "t" KeyError eq_refl eq_refl)
    as (_ & _ & Hp).
  exact Hp.
Defined.

Lemma process_false_only_before_listing_witness :
  map fst (trace (snd (process scripted no_lookup same_order "id" "secret"
                               (JStr "http://localhost/code") (JStr "c0de")
                               token_refused)))
  = [token_request "id" "secret" (JStr "http://localhost/code") (JStr "c0de")].
Proof.
  destruct (process_false_only_before_listing Script scripted no_lookup same_order
              "id" "secret" (JStr "http://localhost/code") (JStr "c0de")
              token_refused eq_refl)
    as [[_ Ht]|[Hk _]].
  - exact Ht.
  - discriminate Hk.
Defined.

Lemma get_resource_needs_total_witness :
  fst (get_resource scripted EpMeTracks NoHeaders None [] (signed_in only_error))
  = Raise KeyError /\
  List.length (trace (snd (get_resource scripted EpMeTracks NoHeaders None []
                                        (signed_in only_error)))) = 1%nat.
Proof.
  destruct (get_resource_needs_total Script scripted EpMeTracks NoHeaders None []
              (signed_in only_error) KeyError eq_refl)
    as (Hr & Ht).
  split; [exact Hr|]. rewrite Ht. reflexivity.
Defined.

Lemma page_count_falls_short_witness :
  page_count 120 * 50 < 120.
Proof.
  apply (page_count_falls_short 120 ltac:(lia)).
  split; [lia|]. left. split; reflexivity.
Defined.

Lemma get_resource_drops_tail_witness :
  exists evs : list Event,
    List.length evs = 2%nat /\ 50 * (120 / 50) < 120.
Proof.
  destruct (get_resource_drops_tail Script scripted EpMeTracks NoHeaders None []
              (signed_in two_pages) 120 eq_refl ltac:(lia)
              ltac:(split; reflexivity))
    as (evs & _ & Hlen & _ & Hshort).
  exists evs. split; [exact Hlen|exact Hshort].
Defined.

Lemma get_songs_follows_listing_witness :
  exists items : list json,
    fst (get_resource scripted EpMeTracks NoHeaders None [] (signed_in one_saved_track))
    = Ok items /\
    List.length items = 1%nat.
Proof.
  destruct (get_songs_follows_listing Script scripted (signed_in one_saved_track)
              [mkSong (JStr "Song") (JStr "Artist") JNull (JStr "spotify:track:1")]
              eq_refl)
    as (items & Hr & Hlen & _).
  exists items. split; [exact Hr|]. symmetry. exact Hlen.
Defined.

Lemma get_songs_all_or_nothing_witness :
  exists e, fst (get_songs scripted (signed_in broken_entry)) = Raise e.
Proof.
  apply (get_songs_all_or_nothing Script scripted (signed_in broken_entry)
           [JObj [("added_at", JStr "2020")]] (JObj [("added_at", JStr "2020")])
           KeyError eq_refl).
  - left. reflexivity.
  - reflexivity.
Defined.

Lemma get_songs_and_lan_keeps_tracks_witness :
  exists songs : list Song,
    fst (get_songs scripted (signed_in one_saved_track)) = Ok songs /\
    [JStr "spotify:track:1"] = map song_uri songs.
Proof.
  destruct (get_songs_and_lan_keeps_tracks Script scripted no_hits
              (signed_in one_saved_track)
              [mkSong (JStr "Song") (JStr "Artist") unidentified (JStr "spotify:track:1")]
              eq_refl)
    as (songs & Hs & _ & _ & Hu).
  exists songs. split; [exact Hs|exact Hu].
Defined.

Lemma get_songs_and_lan_submits_every_lookup_witness :
  fst (get_songs_and_lan scripted no_lookup (signed_in one_saved_track))
  = Raise ConnectionError /\
  List.length (trace (snd (get_songs_and_lan scripted no_lookup
                                             (signed_in one_saved_track)))) = 3%nat.
Proof.
  split; [reflexivity|].
  rewrite <- (length_map fst).
  rewrite (get_songs_and_lan_submits_every_lookup Script scripted no_lookup
             (signed_in one_saved_track)
             [mkSong (JStr "Song") (JStr "Artist") JNull (JStr "spotify:track:1")]
             eq_refl).
  reflexivity.
Defined.

Lemma empty_playlist_removes_what_it_read_witness :
  exists evs : list Event,
    removals_follow_pages (JStr "p") (Bearer "t") evs /\
    (List.length (filter is_delete evs) <= 2)%nat.
Proof.
  destruct (empty_playlist_removes_what_it_read Script scripted (JStr "p")
              (signed_in shrinking_playlist) 100 eq_refl)
    as (evs & _ & Hp & Hn).
  exists evs. split; [exact Hp|exact Hn].
Defined.

Lemma empty_playlist_nothing_to_remove_witness :
  fst (empty_playlist scripted (JStr "p") (signed_in empty_listing)) = Ok tt /\
  List.length (trace (snd (empty_playlist scripted (JStr "p") (signed_in empty_listing))))
  = 1%nat.
Proof.
  destruct (empty_playlist_nothing_to_remove Script scripted (JStr "p")
              (signed_in empty_listing) 0 eq_refl ltac:(lia))
    as (Hr & Ht).
  split; [exact Hr|]. rewrite Ht. reflexivity.
Defined.

Lemma update_playlist_stops_at_first_failure_witness :
  exists (evs : list Event) (ev : Event),
    List.length evs = 1%nat /\
    call_result (snd ev) = Raise UnboundLocalError.
Proof.
  destruct (update_playlist_stops_at_first_failure Script scripted (JStr "p") uris91
              (signed_in second_append_lost) UnboundLocalError eq_refl)
    as (evs & ev & Ht & _ & He & _ & _).
  exists evs, ev. split; [|exact He].
  assert (Hl : List.length (trace (snd (update_playlist scripted (JStr "p") uris91
                                         (signed_in second_append_lost)))) = 2%nat)
    by (vm_compute; reflexivity).
  rewrite Ht in Hl. rewrite !length_app in Hl.
  cbn [List.length signed_in trace] in Hl. lia.
Defined.

Lemma create_playlist_without_id_witness :
  fst (create_playlist scripted (JStr "en") uris91 (signed_in only_error)) = Ok false /\
  List.length (trace (snd (create_playlist scripted (JStr "en") uris91
                                           (signed_in only_error)))) = 1%nat.
Proof.
  destruct (create_playlist_without_id Script scripted (JStr "en") uris91
              (signed_in only_error) (JStr "me") JNull eq_refl eq_refl eq_refl)
    as (Hr & Ht & _).
  split; [exact Hr|]. rewrite Ht. reflexivity.
Defined.

Lemma user_id_is_needed_witness :
  fst (get_playlists scripted (init one_playlist)) = Raise AttributeError /\
  trace (snd (create_playlist scripted (JStr "en") [] (init one_playlist))) = [].
Proof.
  destruct (user_id_is_needed Script scripted (JStr "en") [] (init one_playlist) eq_refl)
    as (Hg & Hc).
  rewrite Hg, Hc. split; reflexivity.
Defined.

Lemma groups_are_distinct_and_inhabited_witness :
  Forall (fun kv : json * list json => snd kv <> [])
         [(JStr "en", [JStr "u1"; JStr "u3"]); (JStr "pl", [JStr "u2"])].
Proof.
  destruct (groups_are_distinct_and_inhabited same_order
              (fun l => Permutation_refl l) three_songs
              [(JStr "en", [JStr "u1"; JStr "u3"]); (JStr "pl", [JStr "u2"])]
              eq_refl)
    as (_ & Hne & _).
  exact Hne.
Defined.

Lemma group_songs_raises_iff_witness :
  group_songs same_order odd_songs = Raise TypeError.
Proof.
  apply (group_songs_raises_iff same_order (fun l => Permutation_refl l)
           odd_songs TypeError).
  split; [reflexivity|].
  exists (mkSong (JStr "n2") (JStr "a2") (JArr [JStr "pl"]) (JStr "u2")).
  split; [right; left; reflexivity|reflexivity].
Defined.

Lemma playlist_names_last_wins_witness :
  dict_lookup [(JStr "en", JStr "p3"); (JStr "pl", JStr "p2")] (JStr "en")
  = Some (JStr "p3").
Proof.
  rewrite (playlist_names_last_wins twin_playlists
             [(JStr "en", JStr "p3"); (JStr "pl", JStr "p2")] (JStr "en") eq_refl).
  reflexivity.
Defined.

Lemma reconcile_stops_when_emptying_fails_witness :
  fst (reconcile scripted [(JStr "en", JStr "p")] [(JStr "en", [JStr "u1"])]
                 (JStr "en") (signed_in only_error)) = Raise KeyError.
Proof.
  destruct (reconcile_stops_when_emptying_fails Script scripted
              [(JStr "en", JStr "p")] [(JStr "en", [JStr "u1"])] (JStr "en") (JStr "p")
              (signed_in only_error) KeyError eq_refl eq_refl)
    as (Hr & _).
  exact Hr.
Defined.

Lemma reconcile_goes_on_after_refused_creation_witness :
  fst (reconcile scripted [] [(JStr "en", [JStr "u1"])] (JStr "en")
                 (signed_in only_error)) = Ok tt.
Proof.
  destruct (reconcile_goes_on_after_refused_creation Script scripted
              [] [(JStr "en", [JStr "u1"])] (JStr "en") [JStr "u1"]
              (signed_in only_error) (JStr "me") JNull
              eq_refl eq_refl eq_refl eq_refl eq_refl)
    as (Hr & _).
  exact Hr.
Defined.

Lemma redistribute_empty_library_witness :
  fst (redistribute scripted no_lookup same_order (signed_in empty_account)) = Ok RetNone /\
  List.length (trace (snd (redistribute scripted no_lookup same_order
                                        (signed_in empty_account)))) = 4%nat.
Proof.
  destruct (redistribute_empty_library Script scripted no_lookup same_order
              (fun l => Permutation_refl l)
              (signed_in empty_account)
              (snd (get_songs_and_lan scripted no_lookup
                      (add_log (LogInfo "Authorized correctly")
                               (signed_in empty_account))))
              (snd (get_playlists scripted
                      (add_log (LogInfo "Collecting users's songs and playlists")
                         (snd (get_songs_and_lan scripted no_lookup
                                 (add_log (LogInfo "Authorized correctly")
                                          (signed_in empty_account)))))))
              [] [] eq_refl eq_refl eq_refl)
    as (Hr & Ht).
  split; [exact Hr|]. rewrite Ht. reflexivity.
Defined.

Lemma get_playlists_follows_listing_witness :
  exists items : list json,
    fst (get_resource scripted (EpUserPlaylists (JStr "me")) NoHeaders None []
                      (signed_in one_playlist)) = Ok items /\
    List.length items = 1%nat.
Proof.
  destruct (get_playlists_follows_listing Script scripted (signed_in one_playlist)
              (JStr "me") [mkPlaylist (JStr "en") (JStr "p1")] eq_refl eq_refl)
    as (items & Hr & Hlen & _).
  exists items. split; [exact Hr|]. symmetry. exact Hlen.
Defined.
